(** * CNN1.py: a LeNet-style MNIST classifier in TensorFlow/Keras

    A shallow embedding of [PYTHON/MNIST/MNIST-LeNet5/CNN1.py].  The script
    is glue code over TensorFlow: the functions of the script are translated
    line by line, and the framework primitives they call ([tf.cast],
    [tf.nn.moments], [tf.one_hot], [Dataset.batch], [EarlyStopping], ...)
    are given by their documented behaviour.

    Numbers.  The per-sample transform is given twice.  Over the real
    numbers it is the formula of the script in exact arithmetic; what is
    proved of it are the properties that rounding does not touch: ranks,
    shapes, the label encoding, the order of the intensities.  In module
    [Binary32] it is the same code over IEEE 754 binary32, which is what
    [tf.float32] is; whatever depends on the values the transform returns
    is stated there.  Pixel intensities ([uint8]) and labels ([int64]) are
    integers; decimal hyper-parameters are rationals. *)

From Stdlib Require Import String QArith.
From Stdlib Require Import Bool Arith ZArith Reals Psatz Lia List Permutation.
From Stdlib Require Import SpecFloat Qabs.
Import ListNotations.

Local Open Scope string_scope.
Local Open Scope list_scope.

(** ** Python outcomes *)

Inductive PyError : Type :=
| NameError (name : string)
| AttributeError (obj attr : string)
| InvalidArgumentError (msg : string).

Inductive result (A : Type) : Type :=
| Ok (a : A)
| Raise (e : PyError).

Arguments Ok {A} a.
Arguments Raise {A} e.

Definition bind {A B : Type} (c : result A) (k : A -> result B) : result B :=
  match c with
  | Ok a => k a
  | Raise e => Raise e
  end.

Notation "x <- c ;; k" := (bind c (fun x => k))
  (at level 61, c at next level, right associativity).
Notation "' p <- c ;; k" := (bind c (fun x => match x with p => k end))
  (at level 61, p pattern, c at next level, right associativity).

(** ** Hyper-parameters (lines 27-32 of the script) *)

Definition INPUT_SHAPE : list nat := [28; 28; 1]%nat.
Definition NUM_CLASSES : nat := 10.
Definition BATCH_SIZE : nat := 128.
Definition MAX_EPOCHS : nat := 50.
Definition DROPOUT_RATE : Q := 15 # 100.
Definition MODEL_H5_PATH : string := "mnist_cnn.h5".

(** ** Tensors

    A dense tensor is its shape and its entries in row-major order. *)

Record Tensor (A : Type) : Type := mkTensor {
  shape : list nat;
  data : list A
}.

Arguments mkTensor {A} shape data.
Arguments shape {A} t.
Arguments data {A} t.

Definition numel (s : list nat) : nat := fold_right Nat.mul 1%nat s.

Definition rank {A} (t : Tensor A) : nat := length (shape t).

Definition well_formed {A} (t : Tensor A) : Prop :=
  length (data t) = numel (shape t).

Definition tensor_map {A B} (f : A -> B) (t : Tensor A) : Tensor B :=
  mkTensor (shape t) (map f (data t)).

(** A [uint8] image as the dataset delivers it. *)
Definition is_uint8 (p : Z) : Prop := (0 <= p <= 255)%Z.


Local Open Scope R_scope.

(** *** Framework primitives *)

(** [tf.cast(image, tf.float32)] on integer entries. *)
Definition tf_cast (t : Tensor Z) : Tensor R := tensor_map IZR t.

(** [t / c] for a Python scalar [c]. *)
Definition div_scalar (t : Tensor R) (c : R) : Tensor R :=
  tensor_map (fun x => x / c) t.

(** [t + c] for a Python scalar [c]. *)
Definition add_scalar (t : Tensor R) (c : R) : Tensor R :=
  tensor_map (fun x => x + c) t.

Definition tf_sqrt (t : Tensor R) : Tensor R := tensor_map sqrt t.

Definition list_sum_R (l : list R) : R := fold_right Rplus 0 l.

(** The sum of the entries [j], [t + j], [2t + j], ... ([n] of them). *)
Definition strided_sum (xs : list R) (t j n : nat) : R :=
  list_sum_R (map (fun o => nth (o * t + j)%nat xs 0) (seq 0 n)).

(** [tf.reduce_mean(x, axis=[0, ..., k-1])]: the mean over the [k] leading
    axes.  An axis beyond the rank is an error; the result has the shape of
    the remaining axes. *)
Definition reduce_mean_leading (k : nat) (x : Tensor R) : result (Tensor R) :=
  if (k <=? rank x)%nat then
    let n := numel (firstn k (shape x)) in
    let rest := skipn k (shape x) in
    let t := numel rest in
    Ok (mkTensor rest
          (map (fun j => strided_sum (data x) t j n / INR n) (seq 0 t)))
  else Raise (InvalidArgumentError "Invalid reduction dimension").

(** [x op y] where the shape of [y] is a suffix of the shape of [x], which
    is how the moments of [x] over leading axes meet [x]: broadcasting
    repeats [y] along the leading axes of [x]. *)
Definition broadcast (op : R -> R -> R) (x y : Tensor R) : Tensor R :=
  let m := length (data y) in
  mkTensor (shape x)
    (map (fun ix => op (snd ix) (nth (fst ix mod m) (data y) 0))
         (combine (seq 0 (length (data x))) (data x))).

(** [tf.nn.moments(x, axes=[0, ..., k-1])]: the mean, and the mean of the
    squared differences to it. *)
Definition tf_nn_moments (x : Tensor R) (k : nat)
  : result (Tensor R * Tensor R) :=
  mean <- reduce_mean_leading k x ;;
  var <- reduce_mean_leading k
           (tensor_map (fun d => d * d) (broadcast Rminus x mean)) ;;
  Ok (mean, var).

(** [tf.expand_dims(t, axis)]: a new axis of size 1 at position [axis],
    counted from the end when negative. *)
Definition tf_expand_dims {A} (t : Tensor A) (axis : Z) : result (Tensor A) :=
  let r := Z.of_nat (rank t) in
  if ((- (r + 1) <=? axis) && (axis <=? r))%Z then
    let p := Z.to_nat (if (axis <? 0)%Z then r + 1 + axis else axis)%Z in
    Ok (mkTensor (firstn p (shape t) ++ [1%nat] ++ skipn p (shape t)) (data t))
  else Raise (InvalidArgumentError "expand_dims: axis out of range").

(** [tf.one_hot(indices, depth)] for a scalar index: 1 at the index, 0
    elsewhere; an index outside [0, depth) gives the zero vector. *)
Definition tf_one_hot (indices : Z) (depth : nat) : Tensor R :=
  mkTensor [depth]
    (map (fun i => if (Z.of_nat i =? indices)%Z then 1 else 0) (seq 0 depth)).

(** ** The per-sample transform (lines 35-41) *)

Definition epsilon : R := 1 / 1000000.

Definition scaled (image : Tensor Z) : Tensor R :=
  div_scalar (tf_cast image) 255.

Definition normalize_img (image : Tensor Z) (label : Z)
  : result (Tensor R * Tensor R) :=
  let image := div_scalar (tf_cast image) 255 in
  '(mean, var) <- tf_nn_moments image 3 ;;
  let std := tf_sqrt var in
  let image := broadcast Rdiv (broadcast Rminus image mean)
                         (add_scalar std epsilon) in
  image <- tf_expand_dims image (-1) ;;
  Ok (image, tf_one_hot label NUM_CLASSES).

(** Statistics of a flat list of entries, for stating what the transform
    achieves. *)
Definition mean_of (xs : list R) : R := list_sum_R xs / INR (length xs).

Definition variance_of (xs : list R) : R :=
  mean_of (map (fun x => (x - mean_of xs) * (x - mean_of xs)) xs).

(** ** Datasets ([tf.data])

    A finite dataset is the list of its elements in iteration order,
    together with the chain of transformations that built it. *)

Definition AUTOTUNE : Z := (-1)%Z.

Inductive DatasetOp : Type :=
| OpMap (num_parallel_calls : Z)
| OpCache
| OpShuffle (buffer_size : nat)
| OpBatch (batch_size : nat)
| OpPrefetch (buffer_size : Z).

Record Dataset (A : Type) : Type := mkDataset {
  elements : list A;
  lineage : list DatasetOp
}.

Arguments mkDataset {A} elements lineage.
Arguments elements {A} d.
Arguments lineage {A} d.

(** A dataset fresh from the loader. *)
Definition from_source {A} (l : list A) : Dataset A := mkDataset l [].

Fixpoint map_result {A B} (f : A -> result B) (l : list A) : result (list B) :=
  match l with
  | [] => Ok []
  | x :: l' =>
      y <- f x ;;
      ys <- map_result f l' ;;
      Ok (y :: ys)
  end.

Fixpoint remove_nth {A} (i : nat) (l : list A) : list A :=
  match l, i with
  | [], _ => []
  | _ :: l', O => l'
  | x :: l', S i' => x :: remove_nth i' l'
  end.

(** A buffer that hands out its slots in an order chosen from outside:
    each step emits the slot [draws k mod (size of the buffer)] and
    refills it from the input while there is any.  [draws k] is the
    choice of step [k]; [n] bounds the number of steps. *)
Fixpoint shuffle_steps {A} (draws : nat -> nat) (k n : nat)
    (buffer input : list A) : list A :=
  match n with
  | O => []
  | S n' =>
      match buffer with
      | [] => []
      | b :: _ =>
          let i := (draws k mod length buffer)%nat in
          let x := nth i buffer b in
          match input with
          | [] => x :: shuffle_steps draws (S k) n' (remove_nth i buffer) []
          | y :: input' =>
              x :: shuffle_steps draws (S k) n'
                     (firstn i buffer ++ y :: skipn (S i) buffer) input'
          end
      end
  end.

(** The order in which the results of parallel calls are handed over
    when no order is asked for: at each step any of the elements still to
    come may be the next one, [arrival] tells which. *)
Definition arrival_order {A} (arrival : nat -> nat) (l : list A) : list A :=
  shuffle_steps arrival 0 (length l) l [].

(** [ds.map(f, num_parallel_calls=n)] on a dataset whose options do not
    ask for a deterministic order, as those of the splits that
    [tfds.load(..., shuffle_files=True)] returns do not: with parallel
    calls a result is handed over when it is ready, so the elements can
    come out in another order than they went in.  Without parallel calls
    the order is kept.  An element on which [f] raises aborts the run. *)
Definition ds_map {A B} (f : A -> result B) (num_parallel_calls : Z)
    (arrival : nat -> nat) (ds : Dataset A) : result (Dataset B) :=
  let inputs := if (num_parallel_calls =? 1)%Z then elements ds
                else arrival_order arrival (elements ds) in
  ys <- map_result f inputs ;;
  Ok (mkDataset ys (lineage ds ++ [OpMap num_parallel_calls])).

(** [ds.cache()] *)
Definition ds_cache {A} (ds : Dataset A) : Dataset A :=
  mkDataset (elements ds) (lineage ds ++ [OpCache]).

(** [ds.prefetch(buffer_size)] *)
Definition ds_prefetch {A} (buffer_size : Z) (ds : Dataset A) : Dataset A :=
  mkDataset (elements ds) (lineage ds ++ [OpPrefetch buffer_size]).

(** [ds.shuffle(buffer_size)] for one pass over the data: the buffer starts
    with the first [buffer_size] elements.  TensorFlow rejects a buffer
    size of 0. *)
Definition ds_shuffle {A} (buffer_size : nat) (draws : nat -> nat)
    (ds : Dataset A) : result (Dataset A) :=
  if (buffer_size =? 0)%nat
  then Raise (InvalidArgumentError "buffer_size must be greater than zero")
  else Ok (mkDataset
             (shuffle_steps draws 0 (length (elements ds))
                (firstn buffer_size (elements ds))
                (skipn buffer_size (elements ds)))
             (lineage ds ++ [OpShuffle buffer_size])).

(** Consecutive groups of [n] elements; the last group takes what is left. *)
Fixpoint groups {A} (fuel n : nat) (l : list A) : list (list A) :=
  match fuel with
  | O => []
  | S fuel' =>
      match l with
      | [] => []
      | _ :: _ => firstn n l :: groups fuel' n (skipn n l)
      end
  end.

(** [ds.batch(batch_size)] ([drop_remainder=False]); TensorFlow rejects a
    batch size of 0. *)
Definition ds_batch {A} (batch_size : nat) (ds : Dataset A)
  : result (Dataset (list A)) :=
  if (batch_size =? 0)%nat
  then Raise (InvalidArgumentError "batch_size must be greater than zero")
  else Ok (mkDataset (groups (length (elements ds)) batch_size (elements ds))
             (lineage ds ++ [OpBatch batch_size])).

Definition RawSample : Type := Tensor Z * Z.
Definition Sample : Type := Tensor R * Tensor R.

Definition normalize_sample (s : RawSample) : result Sample :=
  normalize_img (fst s) (snd s).

(** The choices the runtime makes during one run are read from one tape,
    every third cell by each of its three readers: [substream i draws] is
    the tape of reader [i]. *)
Definition substream (i : nat) (draws : nat -> nat) : nat -> nat :=
  fun k => draws (3 * k + i)%nat.

(** ** Loading (lines 44-62)

    [tfds.load('mnist', split=['train', 'test'], shuffle_files=True,
    as_supervised=True)] is the environment: [src_train] and [src_test]
    are the two splits as the loader delivers them.  [draws] is the tape
    of the choices of the runtime: the order in which the parallel map of
    the train split hands over its results (reader 0), the same for the
    test split (reader 1), and the draws of the shuffle buffer (reader
    2). *)
Definition load_datasets (src_train src_test : list RawSample)
    (draws : nat -> nat)
  : result (Dataset (list Sample) * Dataset (list Sample)) :=
  let ds_train := from_source src_train in
  let ds_test := from_source src_test in
  ds_train <- ds_map normalize_sample AUTOTUNE (substream 0 draws) ds_train ;;
  ds_train <- ds_shuffle 1000 (substream 2 draws) (ds_cache ds_train) ;;
  ds_train <- ds_batch BATCH_SIZE ds_train ;;
  let ds_train := ds_prefetch AUTOTUNE ds_train in
  ds_test <- ds_map normalize_sample AUTOTUNE (substream 1 draws) ds_test ;;
  ds_test <- ds_batch BATCH_SIZE ds_test ;;
  let ds_test := ds_prefetch AUTOTUNE (ds_cache ds_test) in
  Ok (ds_train, ds_test).

(** The two pipelines in the words of the specification. *)
Definition spec_train_pipeline : list DatasetOp :=
  [OpMap AUTOTUNE; OpCache; OpShuffle 1000; OpBatch 128; OpPrefetch 1].

Definition spec_test_pipeline (prefetch_size : Z) : list DatasetOp :=
  [OpMap AUTOTUNE; OpBatch 128; OpCache; OpPrefetch prefetch_size].

(** ** The model (lines 65-93)

    Layers carry the arguments the script passes, strings included; an
    argument the script leaves out is [None]. *)

Inductive Layer : Type :=
| Conv2D (filters kernel_size : nat) (activation padding : string)
         (kernel_initializer : string) (input_shape : option (list nat))
| MaxPooling2D (pool_size : nat)
| Dropout (rate : Q)
| Flatten
| Dense (units : nat) (activation : string)
        (kernel_initializer : option string).

Inductive Optimizer : Type :=
| Adam (learning_rate : Q).

Record CompileConfig : Type := mkCompile {
  optimizer : Optimizer;
  loss_name : string;
  metrics : list string
}.

Record Model : Type := mkModel {
  layers : list Layer;
  compiled : option CompileConfig
}.

Definition Sequential (ls : list Layer) : Model := mkModel ls None.

Definition compile (m : Model) (opt : Optimizer) (loss : string)
    (ms : list string) : Model :=
  mkModel (layers m) (Some (mkCompile opt loss ms)).

Definition build_model : Model :=
  let model := Sequential [
    Conv2D 32 5 "relu" "valid" "he_normal" (Some INPUT_SHAPE);
    MaxPooling2D 2;
    Dropout DROPOUT_RATE;
    Conv2D 64 5 "relu" "valid" "he_normal" None;
    MaxPooling2D 2;
    Dropout DROPOUT_RATE;
    Flatten;
    Dense 1024 "relu" (Some "he_normal");
    Dropout DROPOUT_RATE;
    Dense NUM_CLASSES "softmax" None
  ] in
  compile model (Adam (1 # 1000)) "categorical_crossentropy" ["accuracy"].

(** The shape a layer produces from the shape it receives (Keras: a
    [valid] convolution loses [kernel_size - 1] per spatial axis, a [same]
    one keeps it; pooling divides, rounding down). *)
Definition layer_output_shape (l : Layer) (s : list nat) : option (list nat) :=
  match l, s with
  | Conv2D f k _ padding _ _, [h; w; _] =>
      if String.eqb padding "valid" then
        if ((k <=? h) && (k <=? w) && (1 <=? k))%nat
        then Some [h - (k - 1); w - (k - 1); f]%nat else None
      else if String.eqb padding "same" then Some [h; w; f]
      else None
  | MaxPooling2D p, [h; w; c] =>
      if (1 <=? p)%nat then Some [h / p; w / p; c]%nat else None
  | Dropout _, _ => Some s
  | Flatten, _ => Some [numel s]
  | Dense u _ _, [_] => Some [u]
  | _, _ => None
  end.

Fixpoint model_output_shapes (ls : list Layer) (s : list nat)
  : option (list (list nat)) :=
  match ls with
  | [] => Some []
  | l :: ls' =>
      match layer_output_shape l s with
      | Some s' =>
          match model_output_shapes ls' s' with
          | Some rest => Some (s' :: rest)
          | None => None
          end
      | None => None
      end
  end.

(** *** The architecture in the words of the specification *)

Inductive SpecActivation : Type := ReLU | Softmax.
Inductive SpecInit : Type := HeNormal.
Inductive SpecLoss : Type := CategoricalCrossEntropy.
Inductive SpecMetric : Type := ClassificationAccuracy.

Inductive Stage : Type :=
| StConv (filters kernel_h kernel_w : nat) (act : SpecActivation)
         (padded : bool) (init : SpecInit)
| StMaxPool (pool_h pool_w : nat)
| StDropout (rate : Q)
| StFlatten
| StDense (units : nat) (act : SpecActivation) (init : option SpecInit).

Definition spec_stages : list Stage :=
  [ StConv 32 5 5 ReLU false HeNormal;
    StMaxPool 2 2;
    StDropout (15 # 100);
    StConv 64 5 5 ReLU false HeNormal;
    StMaxPool 2 2;
    StDropout (15 # 100);
    StFlatten;
    StDense 1024 ReLU (Some HeNormal);
    StDropout (15 # 100);
    StDense 10 Softmax None ].

Definition spec_training : SpecLoss * Q * list SpecMetric :=
  (CategoricalCrossEntropy, 1 # 1000, [ClassificationAccuracy]).

(** How Keras resolves the strings of the script. *)
Definition resolve_activation (s : string) : option SpecActivation :=
  if String.eqb s "relu" then Some ReLU
  else if String.eqb s "softmax" then Some Softmax
  else None.

Definition resolve_padding (s : string) : option bool :=
  if String.eqb s "valid" then Some false
  else if String.eqb s "same" then Some true
  else None.

Definition resolve_initializer (s : string) : option SpecInit :=
  if String.eqb s "he_normal" then Some HeNormal else None.

Definition resolve_loss (s : string) : option SpecLoss :=
  if String.eqb s "categorical_crossentropy"
  then Some CategoricalCrossEntropy else None.

Definition resolve_metric (s : string) : option SpecMetric :=
  if String.eqb s "accuracy" then Some ClassificationAccuracy else None.

Definition describe_layer (l : Layer) : option Stage :=
  match l with
  | Conv2D f k a p i _ =>
      match resolve_activation a, resolve_padding p, resolve_initializer i with
      | Some a', Some p', Some i' => Some (StConv f k k a' p' i')
      | _, _, _ => None
      end
  | MaxPooling2D p => Some (StMaxPool p p)
  | Dropout r => Some (StDropout r)
  | Flatten => Some StFlatten
  | Dense u a i =>
      match resolve_activation a, i with
      | Some a', None => Some (StDense u a' None)
      | Some a', Some i' =>
          match resolve_initializer i' with
          | Some i'' => Some (StDense u a' (Some i''))
          | None => None
          end
      | None, _ => None
      end
  end.

Fixpoint all_some {A} (l : list (option A)) : option (list A) :=
  match l with
  | [] => Some []
  | Some x :: l' =>
      match all_some l' with Some xs => Some (x :: xs) | None => None end
  | None :: _ => None
  end.

Definition describe_training (m : Model)
  : option (SpecLoss * Q * list SpecMetric) :=
  match compiled m with
  | Some (mkCompile (Adam lr) l ms) =>
      match resolve_loss l, all_some (map resolve_metric ms) with
      | Some l', Some ms' => Some (l', lr, ms')
      | _, _ => None
      end
  | None => None
  end.

(** ** Training (lines 128-136)

    Keras' [Model.fit] with an [EarlyStopping] callback.  What one epoch
    of gradient descent does to the parameters, and what it measures, is
    the environment of the loop. *)

Record Logs : Type := mkLogs {
  loss : Q;
  accuracy : Q;
  val_loss : Q;
  val_accuracy : Q
}.

(** [logs.get(name)] *)
Definition logs_get (name : string) (l : Logs) : option Q :=
  if String.eqb name "loss" then Some (loss l)
  else if String.eqb name "accuracy" then Some (accuracy l)
  else if String.eqb name "val_loss" then Some (val_loss l)
  else if String.eqb name "val_accuracy" then Some (val_accuracy l)
  else None.

(** The arguments of [EarlyStopping]; the script passes [patience] and
    [restore_best_weights], the others are the defaults of Keras. *)
Record EarlyStoppingConfig : Type := mkESConfig {
  monitor : string;
  min_delta : Q;
  patience : nat;
  restore_best_weights : bool
}.

Definition EarlyStopping (patience : nat) (restore_best_weights : bool)
  : EarlyStoppingConfig :=
  mkESConfig "val_loss" 0 patience restore_best_weights.

Section Training.

Variable Weights : Type.

(** One epoch over the train batches followed by the evaluation on the
    test batches: the new parameters and the four metrics. *)
Variable run_epoch : nat -> Weights -> Weights * Logs.

(** Keras 3 restores the best weights when training ends, however it
    ends; earlier versions restore them only when the callback stops the
    training. *)
Variable restore_on_train_end : bool.

Record CallbackState : Type := mkCallback {
  wait : nat;
  stopped_epoch : nat;
  best : option Q;                 (* [None] is [np.inf] *)
  best_weights : option Weights;
  best_epoch : nat
}.

Record FitState : Type := mkFit {
  weights : Weights;
  stop_training : bool;
  callback : CallbackState;
  history : list Logs
}.

(** [on_train_begin] *)
Definition on_train_begin : CallbackState := mkCallback 0 0 None None 0.

(** [np.less(current - min_delta, best)]: the monitored quantity is a
    loss, so less is better. *)
Definition is_improvement (cfg : EarlyStoppingConfig) (current : Q)
    (reference : option Q) : bool :=
  match reference with
  | None => true
  | Some b => if Qlt_le_dec (current - min_delta cfg) b then true else false
  end.

(** [on_epoch_end(epoch, logs)] *)
Definition on_epoch_end (cfg : EarlyStoppingConfig) (epoch : nat)
    (logs : Logs) (st : FitState) : FitState :=
  match logs_get (monitor cfg) logs with
  | None => st
  | Some current =>
      let cb := callback st in
      let bw :=
        match best_weights cb with
        | None =>
            if restore_best_weights cfg then Some (weights st) else None
        | Some w => Some w
        end in
      let wait' := S (wait cb) in
      if is_improvement cfg current (best cb) then
        let bw' := if restore_best_weights cfg then Some (weights st)
                   else bw in
        mkFit (weights st) (stop_training st)
              (mkCallback 0 (stopped_epoch cb) (Some current) bw' epoch)
              (history st)
      else if ((patience cfg <=? wait') && (0 <? epoch))%nat then
        let w :=
          match bw with
          | Some w' =>
              if restore_best_weights cfg && negb restore_on_train_end
              then w' else weights st
          | None => weights st
          end in
        mkFit w true
              (mkCallback wait' epoch (best cb) bw (best_epoch cb))
              (history st)
      else
        mkFit (weights st) (stop_training st)
              (mkCallback wait' (stopped_epoch cb) (best cb) bw
                          (best_epoch cb))
              (history st)
  end.

(** [on_train_end] *)
Definition on_train_end (cfg : EarlyStoppingConfig) (st : FitState)
  : FitState :=
  match best_weights (callback st) with
  | Some w =>
      if restore_best_weights cfg && restore_on_train_end
      then mkFit w (stop_training st) (callback st) (history st)
      else st
  | None => st
  end.

(** The epoch loop: [n] epochs are left, [epoch] is the next one. *)
Fixpoint fit_loop (cfg : EarlyStoppingConfig) (n epoch : nat)
    (st : FitState) : FitState :=
  match n with
  | O => st
  | S n' =>
      let (w, logs) := run_epoch epoch (weights st) in
      let st1 := mkFit w (stop_training st) (callback st)
                       (history st ++ [logs]) in
      let st2 := on_epoch_end cfg epoch logs st1 in
      if stop_training st2 then st2 else fit_loop cfg n' (S epoch) st2
  end.

(** [model.fit(ds_train, epochs=epochs, validation_data=ds_test,
    callbacks=[cfg])] from the initial parameters [w0]. *)
Definition fit (w0 : Weights) (epochs : nat) (cfg : EarlyStoppingConfig)
  : FitState :=
  on_train_end cfg
    (fit_loop cfg epochs 0 (mkFit w0 false on_train_begin [])).

(** The training of [main]. *)
Definition train (w0 : Weights) : FitState :=
  fit w0 MAX_EPOCHS (EarlyStopping 5 true).

(** The parameters and the validation loss at the end of epoch [e]
    (counted from 0) when nothing stops the training. *)
Fixpoint weights_after (w0 : Weights) (e : nat) : Weights :=
  match e with
  | O => fst (run_epoch 0 w0)
  | S e' => fst (run_epoch e (weights_after w0 e'))
  end.

Definition logs_of (w0 : Weights) (e : nat) : Logs :=
  match e with
  | O => snd (run_epoch 0 w0)
  | S e' => snd (run_epoch e (weights_after w0 e'))
  end.

Definition val_loss_of (w0 : Weights) (e : nat) : Q :=
  val_loss (logs_of w0 e).

(** A validation loss that improves for [K] epochs and then never again:
    each of the first [K] epochs is strictly below the one before it, and
    no later epoch is below epoch [K]. *)
Definition improves_then_plateaus (w0 : Weights) (K : nat) : Prop :=
  (1 <= K)%nat /\
  (forall e, (S e < K)%nat -> (val_loss_of w0 (S e) < val_loss_of w0 e)%Q) /\
  (forall e, (K <= e)%nat ->
             (val_loss_of w0 (K - 1) <= val_loss_of w0 e)%Q).

(** Epoch [b] is the best of the first [n] epochs: its validation loss
    is strictly below every earlier one and no later one, up to [n], is
    below it. *)
Definition best_epoch_of (w0 : Weights) (b n : nat) : Prop :=
  (b < n)%nat /\
  (forall e, (e < b)%nat -> (val_loss_of w0 b < val_loss_of w0 e)%Q) /\
  (forall e, (e < n)%nat -> (val_loss_of w0 b <= val_loss_of w0 e)%Q).

(** The state of the loop after [e] epochs when nothing has stopped it:
    the parameters and the history of [e] epochs, and a callback that
    holds the best epoch [b] so far, its loss and its parameters, and has
    waited since then, for less than the patience. *)
Definition running (w0 : Weights) (e : nat) (st : FitState) : Prop :=
  exists b,
    weights st = weights_after w0 (e - 1) /\
    stop_training st = false /\
    history st = map (logs_of w0) (seq 0 e) /\
    callback st
      = mkCallback (e - 1 - b) 0 (Some (val_loss_of w0 b))
                   (Some (weights_after w0 b)) b /\
    best_epoch_of w0 b e /\
    (e - 1 - b < 5)%nat.

(** The state in which the callback has stopped the loop: five epochs
    after the best epoch [b], with the parameters of [b] restored, at once
    or when training ends. *)
Definition stopped (w0 : Weights) (st : FitState) : Prop :=
  exists b,
    stop_training st = true /\
    history st = map (logs_of w0) (seq 0 (b + 6)) /\
    best_epoch_of w0 b (b + 6) /\
    callback st
      = mkCallback 5 (b + 5) (Some (val_loss_of w0 b))
                   (Some (weights_after w0 b)) b /\
    weights st = (if restore_on_train_end then weights_after w0 (b + 5)
                  else weights_after w0 b).

End Training.

Arguments mkCallback {Weights} wait stopped_epoch best best_weights best_epoch.
Arguments wait {Weights} c.
Arguments stopped_epoch {Weights} c.
Arguments best {Weights} c.
Arguments best_weights {Weights} c.
Arguments best_epoch {Weights} c.
Arguments mkFit {Weights} weights stop_training callback history.
Arguments weights {Weights} f.
Arguments stop_training {Weights} f.
Arguments callback {Weights} f.
Arguments history {Weights} f.
Arguments on_train_begin {Weights}.
Arguments on_epoch_end {Weights} restore_on_train_end cfg epoch logs st.
Arguments on_train_end {Weights} restore_on_train_end cfg st.
Arguments fit_loop {Weights} run_epoch restore_on_train_end cfg n epoch st.
Arguments fit {Weights} run_epoch restore_on_train_end w0 epochs cfg.
Arguments train {Weights} run_epoch restore_on_train_end w0.
Arguments weights_after {Weights} run_epoch w0 e.
Arguments logs_of {Weights} run_epoch w0 e.
Arguments val_loss_of {Weights} run_epoch w0 e.
Arguments improves_then_plateaus {Weights} run_epoch w0 K.
Arguments best_epoch_of {Weights} run_epoch w0 b n.
Arguments running {Weights} run_epoch w0 e st.
Arguments stopped {Weights} run_epoch restore_on_train_end w0 st.

(** ** The script as a program (lines 96-154)

    The outside world of [main]: the working directory, the figures shown
    and the console.  A program threads the world and may raise; the world
    at the point of an exception is kept. *)

Inductive FileFormat : Type :=
| KerasArchive        (* the native [.keras] format *)
| HDF5                (* the legacy [.h5] format *)
| SavedModelDir.      (* a TensorFlow SavedModel directory *)

(** A line drawn by [plt.plot(ys, label=...)]. *)
Record Curve : Type := mkCurve {
  curve_label : string;
  curve_ys : list Q
}.

(** A subplot: its title, the labels of its axes and its lines. *)
Record Chart : Type := mkChart {
  chart_title : string;
  chart_xlabel : string;
  chart_ylabel : string;
  curves : list Curve
}.

(** A figure is the row of its subplots. *)
Definition Figure : Type := list Chart.

Record World : Type := mkWorld {
  files : list (string * FileFormat);
  directories : list string;
  figures : list Figure;            (* the figures shown, latest first *)
  stdout : list string
}.

Definition Prog (A : Type) : Type := World -> result A * World.

Definition ret {A} (a : A) : Prog A := fun w => (Ok a, w).

Definition raise {A} (e : PyError) : Prog A := fun w => (Raise e, w).

Definition pbind {A B} (c : Prog A) (k : A -> Prog B) : Prog B :=
  fun w =>
    match c w with
    | (Ok a, w') => k a w'
    | (Raise e, w') => (Raise e, w')
    end.

Definition lift {A} (r : result A) : Prog A := fun w => (r, w).

Notation "x <~ c ;; k" := (pbind c (fun x => k))
  (at level 61, c at next level, right associativity).
Notation "c ;;; k" := (pbind c (fun _ => k))
  (at level 61, right associativity).

Inductive PyValue : Type :=
| PyStr (s : string)
| PyInt (z : Z)
| PyFloat (q : Q)
| PyTuple (l : list Z)
| PyModule
| PyFunction.

(** The names bound at module level when [main] runs: the imports, the
    constants of lines 27-32 and the functions. *)
Definition module_globals : list (string * PyValue) :=
  [ ("tf", PyModule); ("np", PyModule); ("plt", PyModule);
    ("tfds", PyModule); ("os", PyModule);
    ("INPUT_SHAPE", PyTuple [28; 28; 1]%Z);
    ("NUM_CLASSES", PyInt 10);
    ("BATCH_SIZE", PyInt 128);
    ("MAX_EPOCHS", PyInt 50);
    ("DROPOUT_RATE", PyFloat (15 # 100));
    ("MODEL_H5_PATH", PyStr "mnist_cnn.h5");
    ("normalize_img", PyFunction); ("load_datasets", PyFunction);
    ("build_model", PyFunction); ("plot_metrics", PyFunction);
    ("main", PyFunction) ].

Fixpoint lookup (name : string) (env : list (string * PyValue))
  : option PyValue :=
  match env with
  | [] => None
  | (n, v) :: env' => if String.eqb n name then Some v else lookup name env'
  end.

(** Reading a global variable. *)
Definition load_global (env : list (string * PyValue)) (name : string)
  : Prog PyValue :=
  match lookup name env with
  | Some v => ret v
  | None => raise (NameError name)
  end.

Definition path_of (v : PyValue) : string :=
  match v with PyStr s => s | _ => "" end.

(** [os.path.exists(p)] *)
Definition os_path_exists (p : string) : Prog bool :=
  fun w => (Ok (existsb (String.eqb p) (directories w)
                || existsb (fun f => String.eqb p (fst f)) (files w)), w).

(** [os.makedirs(p)] *)
Definition os_makedirs (p : string) : Prog unit :=
  fun w => (Ok tt, mkWorld (files w) (p :: directories w) (figures w)
                           (stdout w)).

Fixpoint ends_with (suffix s : string) : bool :=
  if String.eqb suffix s then true
  else match s with
       | EmptyString => false
       | String _ s' => ends_with suffix s'
       end.

(** The format [model.save] picks from the file name. *)
Definition save_format (path : string) : FileFormat :=
  if ends_with ".keras" path then KerasArchive
  else if ends_with ".h5" path || ends_with ".hdf5" path then HDF5
  else SavedModelDir.

Definition write_file (path : string) (fmt : FileFormat) : Prog unit :=
  fun w => (Ok tt, mkWorld ((path, fmt) :: files w) (directories w)
                           (figures w) (stdout w)).

(** [model.save(path)] *)
Definition model_save (path : string) : Prog unit :=
  write_file path (save_format path).

(** [model.export(path)]: [has_export] tells whether the installed Keras
    gives models an [export] method. *)
Definition model_export (has_export : bool) (path : string) : Prog unit :=
  if has_export then write_file path SavedModelDir
  else raise (AttributeError "Sequential" "export").

Definition print (s : string) : Prog unit :=
  fun w => (Ok tt, mkWorld (files w) (directories w) (figures w)
                           (stdout w ++ [s])).

(** [plt.show()] on the current figure. *)
Definition plt_show (fig : Figure) : Prog unit :=
  fun w => (Ok tt, mkWorld (files w) (directories w) (fig :: figures w)
                           (stdout w)).

(** [plot_metrics(history)] (lines 96-119): one figure with two subplots
    side by side, the accuracies on the left and the losses on the right,
    each with the train and the validation series of the history. *)
Definition plot_metrics (h : list Logs) : Prog unit :=
  let accuracy_chart :=
    mkChart "Accuracy Curve" "Epochs" "Accuracy"
      [ mkCurve "Train Accuracy" (map accuracy h);
        mkCurve "Test Accuracy" (map val_accuracy h) ] in
  let loss_chart :=
    mkChart "Loss Curve" "Epochs" "Loss"
      [ mkCurve "Train Loss" (map loss h);
        mkCurve "Test Loss" (map val_loss h) ] in
  plt_show [accuracy_chart; loss_chart].

(** Lines 141-150 of [main]: the persistence of the trained model, with
    the module-level names in [env]. *)
Definition save_section (env : list (string * PyValue)) (has_export : bool)
  : Prog unit :=
  dir <~ load_global env "MODEL_DIR" ;;
  present <~ os_path_exists (path_of dir) ;;
  (if negb present then os_makedirs (path_of dir) else ret tt) ;;;
  model_save "CNN1_saved_model.keras" ;;;
  model_save "CNN1_mnist_model.h5" ;;;
  model_export has_export "CNN1_saved_model" ;;;
  print "saved to CNN1_saved_model.keras".

Section Main.

Variable Weights : Type.
Variable run_epoch : nat -> Weights -> Weights * Logs.
Variable restore_on_train_end : bool.
Variable has_export : bool.

(** [main()]: [src_train], [src_test] are the dataset as loaded, [draws]
    the choices of the runtime while loading, [w0] the initial parameters
    of the model. *)
Definition main (src_train src_test : list RawSample) (draws : nat -> nat)
    (w0 : Weights) : Prog unit :=
  _ <~ lift (load_datasets src_train src_test draws) ;;
  let model := build_model in
  let final := train run_epoch restore_on_train_end w0 in
  plot_metrics (history final) ;;;
  save_section module_globals has_export.

End Main.

(** A fresh working directory, nothing shown or printed yet. *)
Definition empty_world : World := mkWorld [] [] [] [].

(** The sentence of the specification on persistence, as stated: once
    training and plotting are done, the two [model.save] calls complete
    and write the two files, whatever the third call does. *)
Definition saves_complete (out : result unit * World) : Prop :=
  In ("CNN1_saved_model.keras", KerasArchive) (files (snd out)) /\
  In ("CNN1_mnist_model.h5", HDF5) (files (snd out)).

(** A synthetic training run: the parameters count the epochs done, and
    the validation loss falls by 1 per epoch until epoch [floor_epoch],
    where it stays. *)
Definition synthetic_epoch (floor_epoch : nat) (e : nat) (w : nat)
  : nat * Logs :=
  (S w, mkLogs 0 0 (inject_Z (100 - Z.of_nat (Nat.min e floor_epoch))) 0).

(** ** Vocabulary of the statements about the transform *)

(** The intensities of an image after the cast and the scaling by 255. *)
Definition pixels (image : Tensor Z) : list R :=
  map (fun p => IZR p / 255) (data image).

(** The standardization formula of the specification on a list of
    intensities: [(x - mean) / (sqrt(variance) + 1e-6)]. *)
Definition standardize (xs : list R) : list R :=
  map (fun x => (x - mean_of xs) / (sqrt (variance_of xs) + epsilon)) xs.

(** An image all of whose intensities are [p]. *)
Definition constant_image (s : list nat) (p : Z) : Tensor Z :=
  mkTensor s (repeat p (numel s)).

(** The all-zero image of the MNIST shape. *)
Definition black_mnist_image : Tensor Z := constant_image [28; 28; 1]%nat 0.

(** The number of entries of a vector that are equal to 1. *)
Definition count_ones (l : list R) : nat := count_occ Req_dec_T l 1.

(** The number of entries of a vector that are equal to 0. *)
Definition count_zeros (l : list R) : nat := count_occ Req_dec_T l 0.

(** A vector that encodes [label] one-hot among 10 classes: length 10, a 1
    at the label, 0 elsewhere; so exactly one 1, nine 0, and sum 1. *)
Definition one_hot_of (label : Z) (enc : Tensor R) : Prop :=
  shape enc = [10%nat] /\
  length (data enc) = 10%nat /\
  nth (Z.to_nat label) (data enc) 0 = 1 /\
  (forall i, i <> Z.to_nat label -> nth i (data enc) 0 = 0) /\
  count_ones (data enc) = 1%nat /\
  count_zeros (data enc) = 9%nat /\
  list_sum_R (data enc) = 1.

(** The entries of a one-hot vector, over the indices [a, a + n). *)
Definition one_hot_entries (label : Z) (a n : nat) : list R :=
  map (fun i => if (Z.of_nat i =? label)%Z then 1 else 0) (seq a n).

(** How many indices of [a, a + n) are the label: 1 or 0. *)
Definition hits (label : Z) (a n : nat) : nat :=
  if ((Z.of_nat a <=? label) && (label <? Z.of_nat (a + n)))%Z
  then 1%nat else 0%nat.

(** The two sentences of the specification on the pipelines that the code
    does not bear out, as stated: the train pipeline ends with a prefetch
    of one batch; the test samples come out in source order. *)
Definition train_prefetch_as_specified : Prop :=
  forall (src_train src_test : list RawSample) (draws : nat -> nat)
         (ds_train ds_test : Dataset (list Sample)),
    load_datasets src_train src_test draws = Ok (ds_train, ds_test) ->
    lineage ds_train = spec_train_pipeline.

Definition test_order_as_specified : Prop :=
  forall (src_train src_test : list RawSample) (draws : nat -> nat)
         (ds_train ds_test : Dataset (list Sample)),
    load_datasets src_train src_test draws = Ok (ds_train, ds_test) ->
    Forall2 (fun raw s => normalize_sample raw = Ok s)
            src_test (concat (elements ds_test)).

(** A raw sample: the all-zero MNIST image with a label. *)
Definition black_sample (label : Z) : RawSample := (black_mnist_image, label).

(** ** The per-sample transform in binary32 arithmetic (lines 35-41)

    The same five lines with [tf.float32] taken as what it is: IEEE 754
    binary32, every operation rounded to nearest, ties to even, with
    signed zeros, infinities and NaN.  TensorFlow does not fix the order in
    which [reduce_mean] adds the entries up, so the order is a parameter
    of the transform. *)

Module Binary32.

Definition prec : Z := 24.
Definition emax : Z := 128.

Definition float32 : Type := spec_float.

Definition fadd : float32 -> float32 -> float32 := SFadd prec emax.
Definition fsub : float32 -> float32 -> float32 := SFsub prec emax.
Definition fmul : float32 -> float32 -> float32 := SFmul prec emax.
Definition fdiv : float32 -> float32 -> float32 := SFdiv prec emax.
Definition fsqrt : float32 -> float32 := SFsqrt prec emax.

(** The binary32 number nearest to an integer. *)
Definition of_Z (z : Z) : float32 := binary_normalize prec emax z 0 false.

Definition of_nat (n : nat) : float32 := of_Z (Z.of_nat n).

Definition zero : float32 := S754_zero false.
Definition one : float32 := of_Z 1.

(** The Python constant [1e-6] as a binary32 number: 8796093 * 2^-43. *)
Definition epsilon : float32 := S754_finite false 8796093 (-43).

(** [s] is a sum of the entries of [l] in some order and some
    bracketing, every addition rounded. *)
Inductive sum_of : list float32 -> float32 -> Prop :=
| sum_of_nil : sum_of [] zero
| sum_of_one (x : float32) : sum_of [x] x
| sum_of_split (l l1 l2 : list float32) (a b : float32) :
    Permutation l (l1 ++ l2) -> sum_of l1 a -> sum_of l2 b ->
    sum_of l (fadd a b).

(** What a reduction kernel may do. *)
Definition valid_reduction (reduce_sum : list float32 -> float32) : Prop :=
  forall l, sum_of l (reduce_sum l).

(** One such kernel: an accumulator that starts at 0 and takes the
    entries from left to right. *)
Definition sum_left_to_right (l : list float32) : float32 :=
  fold_left fadd l zero.

Section Transform.

Variable reduce_sum : list float32 -> float32.

(** [tf.cast(image, tf.float32)] on [uint8] entries: exact. *)
Definition tf_cast (t : Tensor Z) : Tensor float32 := tensor_map of_Z t.

(** [t / c] for a Python scalar [c]. *)
Definition div_scalar (t : Tensor float32) (c : float32) : Tensor float32 :=
  tensor_map (fun x => fdiv x c) t.

(** [t + c] for a Python scalar [c]. *)
Definition add_scalar (t : Tensor float32) (c : float32) : Tensor float32 :=
  tensor_map (fun x => fadd x c) t.

Definition tf_sqrt (t : Tensor float32) : Tensor float32 :=
  tensor_map fsqrt t.

(** The entries [j], [t + j], [2t + j], ... ([n] of them). *)
Definition strided (xs : list float32) (t j n : nat) : list float32 :=
  map (fun o => nth (o * t + j)%nat xs zero) (seq 0 n).

(** [tf.reduce_mean(x, axis=[0, ..., k-1])]: the sum over the [k] leading
    axes divided by the number of entries summed; over no entry at all
    this is 0 / 0, NaN. *)
Definition reduce_mean_leading (k : nat) (x : Tensor float32)
  : result (Tensor float32) :=
  if (k <=? rank x)%nat then
    let n := numel (firstn k (shape x)) in
    let rest := skipn k (shape x) in
    let t := numel rest in
    Ok (mkTensor rest
          (map (fun j => fdiv (reduce_sum (strided (data x) t j n)) (of_nat n))
               (seq 0 t)))
  else Raise (InvalidArgumentError "Invalid reduction dimension").

(** [x op y] where the shape of [y] is a suffix of the shape of [x]. *)
Definition broadcast (op : float32 -> float32 -> float32)
    (x y : Tensor float32) : Tensor float32 :=
  let m := length (data y) in
  mkTensor (shape x)
    (map (fun ix => op (snd ix) (nth (fst ix mod m) (data y) zero))
         (combine (seq 0 (length (data x))) (data x))).

(** [tf.nn.moments(x, axes=[0, ..., k-1])]: the mean, and the mean of the
    squared differences to it. *)
Definition tf_nn_moments (x : Tensor float32) (k : nat)
  : result (Tensor float32 * Tensor float32) :=
  mean <- reduce_mean_leading k x ;;
  var <- reduce_mean_leading k
           (tensor_map (fun d => fmul d d) (broadcast fsub x mean)) ;;
  Ok (mean, var).

(** [tf.one_hot(indices, depth)] for a scalar index. *)
Definition tf_one_hot (indices : Z) (depth : nat) : Tensor float32 :=
  mkTensor [depth]
    (map (fun i => if (Z.of_nat i =? indices)%Z then one else zero)
         (seq 0 depth)).

Definition normalize_img (image : Tensor Z) (label : Z)
  : result (Tensor float32 * Tensor float32) :=
  let image := div_scalar (tf_cast image) (of_Z 255) in
  '(mean, var) <- tf_nn_moments image 3 ;;
  let std := tf_sqrt var in
  let image := broadcast fdiv (broadcast fsub image mean)
                         (add_scalar std epsilon) in
  image <- tf_expand_dims image (-1) ;;
  Ok (image, tf_one_hot label NUM_CLASSES).

End Transform.

(** The exact value of a finite binary32 number; 0 stands in for the
    infinities and NaN, which [is_finite] tells apart. *)
Definition value (x : float32) : Q :=
  match x with
  | S754_finite s m e =>
      let q := if (0 <=? e)%Z then inject_Z (Zpos m * 2 ^ e)
               else Qmake (Zpos m) (Z.to_pos (2 ^ (- e))) in
      if s then Qopp q else q
  | _ => 0%Q
  end.

Definition fle : float32 -> float32 -> bool := SFleb.

(** The least exponent of a binary32 number, -149. *)
Definition emin : Z := SpecFloat.emin prec emax.

(** A number that is 0 or more, [+inf] included, and not NaN; a finite
    one is taken with an exponent in range. *)
Definition non_negative (x : float32) : Prop :=
  match x with
  | S754_zero false | S754_infinity false => True
  | S754_finite false _ e => (emin <= e)%Z
  | _ => False
  end.

(** The same, 0 excluded. *)
Definition strictly_positive (x : float32) : Prop :=
  match x with
  | S754_infinity false => True
  | S754_finite false _ e => (emin <= e)%Z
  | _ => False
  end.

(** Any number but NaN. *)
Definition not_nan (x : float32) : Prop :=
  match x with
  | S754_nan => False
  | S754_finite _ _ e => (emin <= e)%Z
  | _ => True
  end.

Definition is_finite (x : float32) : bool :=
  match x with
  | S754_finite _ _ _ | S754_zero _ => true
  | _ => false
  end.

(** A finite number from 0 to 1. *)
Definition in_unit_interval (x : float32) : bool :=
  is_finite x && fle zero x && fle x one.

(** The intensities of an image after the cast and the division by 255. *)
Definition pixels (image : Tensor Z) : list float32 :=
  map (fun p => fdiv (of_Z p) (of_Z 255)) (data image).

Section Statistics.

Variable reduce_sum : list float32 -> float32.

(** The mean and the variance as [tf.nn.moments] computes them over all
    the entries, the denominator of line 40 and the standardization
    formula, every step rounded. *)
Definition mean_of (xs : list float32) : float32 :=
  fdiv (reduce_sum xs) (of_nat (length xs)).

Definition variance_of (xs : list float32) : float32 :=
  mean_of (map (fun x => fmul (fsub x (mean_of xs)) (fsub x (mean_of xs)))
               xs).

Definition denominator (xs : list float32) : float32 :=
  fadd (fsqrt (variance_of xs)) epsilon.

Definition standardize (xs : list float32) : list float32 :=
  map (fun x => fdiv (fsub x (mean_of xs)) (denominator xs)) xs.

End Statistics.






(** The sentence on constant images, as stated: every constant image
    comes out all zero. *)
Definition constant_images_as_specified : Prop :=
  forall (reduce_sum : list float32 -> float32) (s : list nat)
         (p label : Z),
    valid_reduction reduce_sum ->
    length s = 3%nat -> (0 < numel s)%nat -> is_uint8 p ->
    exists out enc,
      normalize_img reduce_sum (constant_image s p) label = Ok (out, enc) /\
      Forall (eq zero) (data out).

End Binary32.

(** * Properties *)

(** ** Sums, means and variances of lists *)

Lemma map_nth_seq (xs : list R) :
  map (fun o => nth o xs 0) (seq 0 (length xs)) = xs.
Proof.
  induction xs as [|x xs IH]; simpl.
  - reflexivity.
  - f_equal. rewrite <- seq_shift, map_map. exact IH.
Qed.

Lemma strided_sum_all (xs : list R) :
  strided_sum xs 1 0 (length xs) = list_sum_R xs.
Proof.
  unfold strided_sum.
  rewrite (map_ext (fun o => nth (o * 1 + 0) xs 0) (fun o => nth o xs 0)).
  - now rewrite map_nth_seq.
  - intros o. f_equal. lia.
Qed.

Lemma map_snd_combine_seq {A B} (g : A -> B) (l : list A) (a : nat) :
  map (fun ix : nat * A => g (snd ix)) (combine (seq a (length l)) l) = map g l.
Proof.
  revert a. induction l as [|x l IH]; intros a; simpl.
  - reflexivity.
  - f_equal. apply IH.
Qed.

(** ** The transform on an image of rank 3 *)

Lemma broadcast_scalar (op : R -> R -> R) (x : Tensor R) (m : R) :
  broadcast op x (mkTensor [] [m])
  = mkTensor (shape x) (map (fun v => op v m) (data x)).
Proof.
  unfold broadcast. cbn [data length]. f_equal.
  rewrite <- (map_snd_combine_seq (fun v => op v m) (data x) 0).
  apply map_ext. intros [i v]. cbn [fst snd].
  now rewrite Nat.mod_1_r.
Qed.

Lemma reduce_mean_rank3 (x : Tensor R) (h w c : nat) :
  shape x = [h; w; c] -> well_formed x ->
  reduce_mean_leading 3 x = Ok (mkTensor [] [mean_of (data x)]).
Proof.
  intros Hs Hwf. unfold reduce_mean_leading, rank. rewrite Hs.
  cbn [length Nat.leb firstn skipn numel fold_right seq map].
  unfold well_formed in Hwf. rewrite Hs in Hwf. cbn [numel fold_right] in Hwf.
  rewrite <- Hwf, strided_sum_all. reflexivity.
Qed.

Lemma reduce_mean_low_rank (x : Tensor R) :
  (rank x < 3)%nat ->
  reduce_mean_leading 3 x
  = Raise (InvalidArgumentError "Invalid reduction dimension").
Proof.
  intros Hr. unfold reduce_mean_leading.
  destruct (Nat.leb_spec 3 (rank x)); [lia | reflexivity].
Qed.

Lemma expand_dims_last {A} (t : Tensor A) :
  tf_expand_dims t (-1) = Ok (mkTensor (shape t ++ [1%nat]) (data t)).
Proof.
  unfold tf_expand_dims, rank.
  set (r := Z.of_nat (length (shape t))).
  assert (Hr : (0 <= r)%Z) by (subst r; lia).
  replace ((- (r + 1) <=? -1)%Z && (-1 <=? r)%Z)%bool with true
    by (symmetry; apply andb_true_iff; split; apply Z.leb_le; lia).
  replace (-1 <? 0)%Z with true by reflexivity.
  replace (Z.to_nat (r + 1 + -1)) with (length (shape t)) by (subst r; lia).
  rewrite firstn_all, skipn_all. now rewrite app_nil_r.
Qed.

(** On a well-formed image of rank 3 the transform is the standardization
    formula on the scaled intensities, with one axis appended. *)
Lemma normalize_img_rank3 (image : Tensor Z) (label : Z) (h w c : nat) :
  shape image = [h; w; c] -> well_formed image ->
  normalize_img image label
  = Ok (mkTensor [h; w; c; 1%nat] (standardize (pixels image)),
        tf_one_hot label NUM_CLASSES).
Proof.
  intros Hs Hwf. unfold normalize_img, tf_nn_moments.
  set (x := div_scalar (tf_cast image) 255).
  assert (Hxs : shape x = [h; w; c]) by exact Hs.
  assert (Hxd : data x = pixels image).
  { subst x. unfold div_scalar, tf_cast, tensor_map, pixels. cbn [data].
    now rewrite map_map. }
  assert (Hxwf : well_formed x).
  { unfold well_formed. rewrite Hxs, Hxd. unfold pixels.
    rewrite length_map. unfold well_formed in Hwf. now rewrite Hs in Hwf. }
  rewrite (reduce_mean_rank3 x h w c Hxs Hxwf). cbn [bind].
  rewrite broadcast_scalar.
  rewrite (reduce_mean_rank3 _ h w c).
  - cbn [bind]. unfold tf_sqrt, add_scalar, tensor_map.
    cbn [data shape map]. rewrite !broadcast_scalar. cbn [data shape].
    rewrite expand_dims_last. cbn [bind data shape]. rewrite Hxs, Hxd.
    unfold standardize, variance_of. rewrite !map_map. reflexivity.
  - unfold tensor_map. cbn [shape]. exact Hxs.
  - unfold well_formed, tensor_map. cbn [shape data].
    rewrite !length_map. exact Hxwf.
Qed.

(** ** What a successful call of the transform tells *)

Lemma normalize_img_inv (image : Tensor Z) (label : Z) (out enc : Tensor R) :
  normalize_img image label = Ok (out, enc) ->
  (3 <= rank image)%nat /\
  shape out = shape image ++ [1%nat] /\
  enc = tf_one_hot label NUM_CLASSES.
Proof.
  unfold normalize_img, tf_nn_moments.
  set (x := div_scalar (tf_cast image) 255).
  unfold reduce_mean_leading at 1.
  assert (Hrk : rank x = rank image) by reflexivity.
  rewrite Hrk.
  destruct (Nat.leb_spec 3 (rank image)) as [Hle | Hlt]; cbn [bind].
  - unfold reduce_mean_leading.
    match goal with
    | |- context [(3 <=? rank ?t)%nat] =>
        replace (3 <=? rank t)%nat with true
          by (symmetry; apply Nat.leb_le; exact Hle)
    end.
    cbn [bind]. rewrite expand_dims_last. cbn [bind].
    intros H. injection H as Hout Henc. subst out enc.
    cbn [shape]. repeat split; try assumption; reflexivity.
  - discriminate.
Qed.

(** ** C5: the label transform *)

Lemma if_R0_R1 {A} (a b : A) : (if Req_dec_T 0 1 then a else b) = b.
Proof. destruct (Req_dec_T 0 1); [lra | reflexivity]. Qed.

Lemma if_R1_R0 {A} (a b : A) : (if Req_dec_T 1 0 then a else b) = b.
Proof. destruct (Req_dec_T 1 0); [lra | reflexivity]. Qed.

Lemma if_R0_R0 {A} (a b : A) : (if Req_dec_T 0 0 then a else b) = a.
Proof. destruct (Req_dec_T 0 0); [reflexivity | lra]. Qed.

Lemma if_R1_R1 {A} (a b : A) : (if Req_dec_T 1 1 then a else b) = a.
Proof. destruct (Req_dec_T 1 1); [reflexivity | lra]. Qed.

Lemma hits_step (label : Z) (a n : nat) :
  hits label a (S n)
  = ((if (Z.of_nat a =? label)%Z then 1 else 0) + hits label (S a) n)%nat.
Proof.
  unfold hits.
  destruct (Z.eqb_spec (Z.of_nat a) label) as [He | Hne];
    destruct (Z.leb_spec (Z.of_nat a) label);
    destruct (Z.ltb_spec label (Z.of_nat (a + S n)));
    destruct (Z.leb_spec (Z.of_nat (S a)) label);
    destruct (Z.ltb_spec label (Z.of_nat (S a + n)));
    cbn [andb Nat.add]; try reflexivity; lia.
Qed.

Lemma one_hot_entries_sum (label : Z) (n a : nat) :
  list_sum_R (one_hot_entries label a n) = INR (hits label a n).
Proof.
  revert a. induction n as [|n IH]; intros a.
  - unfold hits. rewrite Nat.add_0_r.
    destruct (Z.leb_spec (Z.of_nat a) label);
      destruct (Z.ltb_spec label (Z.of_nat a));
      cbn [andb]; try reflexivity; lia.
  - rewrite hits_step, plus_INR. unfold one_hot_entries in *.
    cbn [seq map list_sum_R fold_right].
    fold (list_sum_R (map (fun i => if (Z.of_nat i =? label)%Z then 1 else 0)
                          (seq (S a) n))).
    rewrite IH. destruct (Z.of_nat a =? label)%Z; simpl; lra.
Qed.

Lemma one_hot_entries_ones (label : Z) (n a : nat) :
  count_ones (one_hot_entries label a n) = hits label a n.
Proof.
  revert a. induction n as [|n IH]; intros a.
  - unfold hits. rewrite Nat.add_0_r.
    destruct (Z.leb_spec (Z.of_nat a) label);
      destruct (Z.ltb_spec label (Z.of_nat a));
      cbn [andb]; try reflexivity; lia.
  - rewrite hits_step. unfold count_ones, one_hot_entries in *.
    cbn [seq map count_occ]. rewrite IH.
    destruct (Z.of_nat a =? label)%Z.
    + now rewrite if_R1_R1.
    + now rewrite if_R0_R1.
Qed.

Lemma one_hot_entries_zeros (label : Z) (n a : nat) :
  (count_zeros (one_hot_entries label a n) + hits label a n = n)%nat.
Proof.
  revert a. induction n as [|n IH]; intros a.
  - unfold hits. rewrite Nat.add_0_r.
    destruct (Z.leb_spec (Z.of_nat a) label);
      destruct (Z.ltb_spec label (Z.of_nat a));
      cbn [andb]; try reflexivity; lia.
  - rewrite hits_step. specialize (IH (S a)).
    unfold count_zeros, one_hot_entries in *.
    cbn [seq map count_occ].
    destruct (Z.of_nat a =? label)%Z.
    + rewrite if_R1_R0. lia.
    + rewrite if_R0_R0. lia.
Qed.

Lemma one_hot_entries_nth (label : Z) (n i : nat) :
  nth i (one_hot_entries label 0 n) 0
  = if ((i <? n)%nat && (Z.of_nat i =? label)%Z)%bool then 1 else 0.
Proof.
  unfold one_hot_entries.
  destruct (Nat.ltb_spec i n) as [Hi | Hi]; cbn [andb].
  - set (f := fun i => if (Z.of_nat i =? label)%Z then 1 else 0).
    transitivity (f (nth i (seq 0 n) 0%nat)).
    + rewrite <- (map_nth f (seq 0 n) 0%nat i). apply nth_indep.
      now rewrite length_map, length_seq.
    + rewrite seq_nth by exact Hi. reflexivity.
  - apply nth_overflow. now rewrite length_map, length_seq.
Qed.

(** C5.  For every label in 0..9 the label component of the transform is a
    vector of length exactly 10 whose entry at the label is 1 and whose
    other entries are 0: exactly one entry is 1, nine are 0, and the
    entries sum to 1. *)
Theorem one_hot_label_encoding (image : Tensor Z) (label : Z)
    (out enc : Tensor R) :
  (0 <= label <= 9)%Z ->
  normalize_img image label = Ok (out, enc) ->
  one_hot_of label enc.
Proof.
  intros Hl Hn.
  destruct (normalize_img_inv _ _ _ _ Hn) as (_ & _ & ->).
  unfold one_hot_of, tf_one_hot, NUM_CLASSES. cbn [shape data].
  fold (one_hot_entries label 0 10).
  assert (Hh : hits label 0 10 = 1%nat).
  { unfold hits.
    destruct (Z.leb_spec (Z.of_nat 0) label);
      destruct (Z.ltb_spec label (Z.of_nat (0 + 10)));
      cbn [andb]; try reflexivity; lia. }
  split; [reflexivity |].
  split; [unfold one_hot_entries; now rewrite length_map, length_seq |].
  split.
  { rewrite one_hot_entries_nth.
    replace (Z.to_nat label <? 10)%nat with true
      by (symmetry; apply Nat.ltb_lt; lia).
    rewrite Z2Nat.id by lia. now rewrite Z.eqb_refl. }
  split.
  { intros i Hi. rewrite one_hot_entries_nth.
    destruct (Z.eqb_spec (Z.of_nat i) label) as [He | Hne].
    - exfalso. apply Hi. subst label. now rewrite Nat2Z.id.
    - now rewrite andb_false_r. }
  split; [now rewrite one_hot_entries_ones |].
  split.
  - pose proof (one_hot_entries_zeros label 10 0). lia.
  - rewrite one_hot_entries_sum, Hh. simpl. reflexivity.
Qed.

Lemma black_mnist_image_well_formed : well_formed black_mnist_image.
Proof.
  unfold well_formed, black_mnist_image, constant_image. cbn [data shape].
  apply repeat_length.
Qed.

Lemma one_hot_label_encoding_witness :
  (0 <= 3 <= 9)%Z /\
  exists out enc,
    normalize_img black_mnist_image 3 = Ok (out, enc) /\ one_hot_of 3 enc.
Proof.
  split; [lia |].
  eexists. eexists. split.
  - apply (normalize_img_rank3 black_mnist_image 3 28 28 1);
      [reflexivity | apply black_mnist_image_well_formed].
  - eapply (one_hot_label_encoding black_mnist_image 3); [lia |].
    apply (normalize_img_rank3 black_mnist_image 3 28 28 1);
      [reflexivity | apply black_mnist_image_well_formed].
Defined.

(** ** C2: the shape of the transformed image *)

(** C2.  The image component of the transform has the shape of its input
    with one more axis of size 1 at the end, and the input has rank 3 at
    least (the moments are taken over axes 0, 1 and 2): the result has rank
    4 at least and never the declared input shape 28 x 28 x 1 of the
    model.  A 28 x 28 x 1 image, as the dataset delivers it, comes out as
    28 x 28 x 1 x 1. *)
Theorem normalize_img_output_shape (image : Tensor Z) (label : Z)
    (out enc : Tensor R) :
  normalize_img image label = Ok (out, enc) ->
  shape out = shape image ++ [1%nat] /\
  (4 <= rank out)%nat /\
  shape out <> INPUT_SHAPE /\
  (shape image = [28; 28; 1]%nat -> shape out = [28; 28; 1; 1]%nat).
Proof.
  intros Hn. destruct (normalize_img_inv _ _ _ _ Hn) as (Hr & Hs & _).
  assert (Hrk : rank out = S (rank image)).
  { unfold rank. rewrite Hs, length_app. simpl. lia. }
  repeat split.
  - exact Hs.
  - lia.
  - intros Heq. unfold rank in Hrk. rewrite Heq in Hrk.
    unfold INPUT_SHAPE in Hrk. simpl in Hrk. unfold rank in Hr. lia.
  - intros Hi. rewrite Hs, Hi. reflexivity.
Qed.

Lemma normalize_img_output_shape_witness :
  exists out enc,
    normalize_img black_mnist_image 0 = Ok (out, enc) /\
    shape out = [28; 28; 1; 1]%nat /\
    shape out <> INPUT_SHAPE.
Proof.
  eexists. eexists. split.
  - apply (normalize_img_rank3 black_mnist_image 0 28 28 1);
      [reflexivity | apply black_mnist_image_well_formed].
  - pose proof (normalize_img_output_shape black_mnist_image 0 _ _
                  (normalize_img_rank3 black_mnist_image 0 28 28 1
                     eq_refl black_mnist_image_well_formed))
      as (_ & _ & Hne & H4).
    split; [exact (H4 eq_refl) | exact Hne].
Defined.

(** An image of rank 2 (28 x 28, no channel axis) is rejected: axis 2 does
    not exist. *)
Lemma normalize_img_rank2_raises (image : Tensor Z) (label : Z) (h w : nat) :
  shape image = [h; w] ->
  normalize_img image label
  = Raise (InvalidArgumentError "Invalid reduction dimension").
Proof.
  intros Hs. unfold normalize_img, tf_nn_moments.
  rewrite reduce_mean_low_rank; [reflexivity |].
  unfold rank, div_scalar, tf_cast, tensor_map. cbn [shape].
  rewrite Hs. simpl. lia.
Qed.

(** ** Constant images in exact arithmetic *)

Lemma epsilon_pos : 0 < epsilon.
Proof. unfold epsilon. lra. Qed.

Lemma list_sum_R_repeat (v : R) (n : nat) :
  list_sum_R (repeat v n) = INR n * v.
Proof.
  induction n as [|n IH].
  - simpl. lra.
  - cbn [repeat list_sum_R fold_right]. fold (list_sum_R (repeat v n)).
    rewrite IH, S_INR. lra.
Qed.

Lemma mean_of_repeat (v : R) (n : nat) :
  (0 < n)%nat -> mean_of (repeat v n) = v.
Proof.
  intros Hn. unfold mean_of. rewrite list_sum_R_repeat, repeat_length.
  field. apply not_0_INR. lia.
Qed.

Lemma map_repeat_const {A B} (f : A -> B) (a : A) (b : B) (n : nat) :
  f a = b -> map f (repeat a n) = repeat b n.
Proof.
  intros Hf. induction n as [|n IH]; simpl.
  - reflexivity.
  - now rewrite Hf, IH.
Qed.

Lemma standardize_repeat (v : R) (n : nat) :
  standardize (repeat v n) = repeat 0 n.
Proof.
  destruct n as [|n]; [reflexivity |].
  unfold standardize. apply map_repeat_const.
  rewrite mean_of_repeat by lia. unfold Rdiv. ring.
Qed.

Lemma pixels_constant_image (s : list nat) (p : Z) :
  pixels (constant_image s p) = repeat (IZR p / 255) (numel s).
Proof.
  unfold pixels, constant_image. cbn [data].
  now apply map_repeat_const.
Qed.

Lemma constant_image_well_formed (s : list nat) (p : Z) :
  well_formed (constant_image s p).
Proof.
  unfold well_formed, constant_image. cbn [data shape]. apply repeat_length.
Qed.

Lemma normalize_img_constant (h w c : nat) (p label : Z) :
  normalize_img (constant_image [h; w; c] p) label
  = Ok (mkTensor [h; w; c; 1%nat] (repeat 0 (numel [h; w; c])),
        tf_one_hot label NUM_CLASSES).
Proof.
  rewrite (normalize_img_rank3 _ label h w c);
    [| reflexivity | apply constant_image_well_formed].
  now rewrite pixels_constant_image, standardize_repeat.
Qed.

(** ** Rounding in binary32 *)

(** *** Signs and exponents *)

Section Rounding.

Local Open Scope Z_scope.

Import Binary32.

Lemma shr_1_div2 (mrs : shr_record) :
  0 <= shr_m mrs -> shr_m (shr_1 mrs) = Z.div2 (shr_m mrs).
Proof.
  destruct mrs as [m r s]. cbn [shr_m].
  destruct m as [|p|p]; [reflexivity | | lia].
  intros _. destruct p; reflexivity.
Qed.

Lemma iter_shr_1 (p : positive) :
  forall mrs, 0 <= shr_m mrs ->
    shr_m (SpecFloat.iter_pos shr_1 p mrs) = Z.shiftr (shr_m mrs) (Zpos p).
Proof.
  assert (Hstep : forall mrs, 0 <= shr_m mrs ->
             shr_m (shr_1 mrs) = Z.shiftr (shr_m mrs) 1).
  { intros mrs H. rewrite shr_1_div2 by exact H.
    now rewrite Z.div2_spec. }
  induction p as [p IH | p IH |]; intros mrs Hm; cbn [SpecFloat.iter_pos].
  - assert (H1 : 0 <= shr_m (shr_1 mrs))
      by (rewrite Hstep by exact Hm; apply Z.shiftr_nonneg; exact Hm).
    assert (H2 : 0 <= shr_m (SpecFloat.iter_pos shr_1 p (shr_1 mrs)))
      by (rewrite IH by exact H1; apply Z.shiftr_nonneg; exact H1).
    rewrite IH by exact H2. rewrite IH by exact H1.
    rewrite Hstep by exact Hm.
    rewrite !Z.shiftr_shiftr by lia. f_equal. lia.
  - assert (H2 : 0 <= shr_m (SpecFloat.iter_pos shr_1 p mrs))
      by (rewrite IH by exact Hm; apply Z.shiftr_nonneg; exact Hm).
    rewrite IH by exact H2. rewrite IH by exact Hm.
    rewrite Z.shiftr_shiftr by lia. f_equal. lia.
  - apply Hstep. exact Hm.
Qed.

(** A positive number of [d] binary digits is at least [2^(d-1)]. *)
Lemma digits2_pos_lower (m : positive) :
  2 ^ (Zpos (digits2_pos m) - 1) <= Zpos m.
Proof.
  induction m as [m IH | m IH |]; cbn [digits2_pos].
  - rewrite Pos2Z.inj_succ.
    replace (Z.succ (Zpos (digits2_pos m)) - 1)
      with (Z.succ (Zpos (digits2_pos m) - 1)) by lia.
    rewrite Z.pow_succ_r by lia. lia.
  - rewrite Pos2Z.inj_succ.
    replace (Z.succ (Zpos (digits2_pos m)) - 1)
      with (Z.succ (Zpos (digits2_pos m) - 1)) by lia.
    rewrite Z.pow_succ_r by lia. lia.
  - simpl. lia.
Qed.

(** Shifting a mantissa right by fewer places than it has digits leaves
    a positive mantissa. *)
Lemma shiftr_positive (m k : positive) :
  Zpos k < Zpos (digits2_pos m) -> 0 < Z.shiftr (Zpos m) (Zpos k).
Proof.
  intros Hk. rewrite Z.shiftr_div_pow2 by lia.
  apply Z.div_str_pos. split; [apply Z.pow_pos_nonneg; lia |].
  eapply Z.le_trans; [| apply digits2_pos_lower].
  apply Z.pow_le_mono_r; lia.
Qed.

(** The first step of rounding: the exponent comes out in range, a
    mantissa that is not negative stays so, and a positive one whose
    exponent is in range already stays positive. *)
Lemma shr_fexp_exponent (m e : Z) (l : location) :
  emin <= snd (shr_fexp prec emax m e l).
Proof.
  unfold shr_fexp, shr, emin.
  destruct (fexp prec emax (Zdigits2 m + e) - e) as [|k|k] eqn:Hk;
    cbn [snd]; unfold fexp in *; lia.
Qed.

Lemma shr_m_of_loc (m : Z) (l : location) :
  shr_m (shr_record_of_loc m l) = m.
Proof. destruct l as [|[| |]]; reflexivity. Qed.

Lemma shr_fexp_nonneg (m e : Z) (l : location) :
  0 <= m -> 0 <= shr_m (fst (shr_fexp prec emax m e l)).
Proof.
  intros Hm. unfold shr_fexp, shr.
  destruct (fexp prec emax (Zdigits2 m + e) - e) as [|k|k];
    cbn [fst]; rewrite ?iter_shr_1; rewrite ?shr_m_of_loc; try lia.
  apply Z.shiftr_nonneg. exact Hm.
Qed.

Lemma shr_fexp_positive (m : positive) (e : Z) (l : location) :
  emin <= e -> 0 < shr_m (fst (shr_fexp prec emax (Zpos m) e l)).
Proof.
  intros He. unfold shr_fexp, shr.
  destruct (fexp prec emax (Zdigits2 (Zpos m) + e) - e) as [|k|k] eqn:Hk;
    cbn [fst]; rewrite ?iter_shr_1; rewrite ?shr_m_of_loc; try lia.
  apply shiftr_positive. cbn [Zdigits2] in Hk.
  unfold fexp, emin, SpecFloat.emin, prec, emax in *. lia.
Qed.

Lemma round_nearest_even_le (m : Z) (l : location) :
  m <= round_nearest_even m l.
Proof.
  destruct l as [|[| |]]; cbn [round_nearest_even]; try lia.
  destruct (Z.even m); lia.
Qed.

(** What rounding returns for a mantissa that is not negative: a zero, a
    finite number or an infinity of the sign asked for, never NaN. *)
Lemma binary_round_aux_nonneg (s : bool) (m e : Z) (l : location) :
  0 <= m ->
  match binary_round_aux prec emax s m e l with
  | S754_zero s' | S754_infinity s' => s' = s
  | S754_finite s' _ e' => s' = s /\ emin <= e'
  | S754_nan => False
  end.
Proof.
  intros Hm. unfold binary_round_aux.
  pose proof (shr_fexp_nonneg m e l Hm) as H1.
  destruct (shr_fexp prec emax m e l) as [mrs1 e1]. cbn [fst] in H1.
  set (m2 := round_nearest_even (shr_m mrs1) (loc_of_shr_record mrs1)).
  assert (Hm2 : 0 <= m2)
    by (pose proof (round_nearest_even_le (shr_m mrs1)
                      (loc_of_shr_record mrs1)); subst m2; lia).
  pose proof (shr_fexp_nonneg m2 e1 loc_Exact Hm2) as H2.
  pose proof (shr_fexp_exponent m2 e1 loc_Exact) as H3.
  destruct (shr_fexp prec emax m2 e1 loc_Exact) as [mrs2 e2].
  cbn [fst snd] in H2, H3.
  destruct (shr_m mrs2) as [|p|p]; [reflexivity | | lia].
  destruct (e2 <=? emax - prec); [split; [reflexivity | exact H3] |
                                  reflexivity].
Qed.

(** A positive mantissa with an exponent in range does not round to
    zero. *)
Lemma binary_round_aux_positive (s : bool) (m : positive) (e : Z)
    (l : location) :
  emin <= e ->
  match binary_round_aux prec emax s (Zpos m) e l with
  | S754_infinity s' => s' = s
  | S754_finite s' _ e' => s' = s /\ emin <= e'
  | _ => False
  end.
Proof.
  intros He. unfold binary_round_aux.
  pose proof (shr_fexp_positive m e l He) as H1.
  pose proof (shr_fexp_exponent (Zpos m) e l) as He1.
  destruct (shr_fexp prec emax (Zpos m) e l) as [mrs1 e1].
  cbn [fst snd] in H1, He1.
  set (m2 := round_nearest_even (shr_m mrs1) (loc_of_shr_record mrs1)).
  assert (Hm2 : 0 < m2)
    by (pose proof (round_nearest_even_le (shr_m mrs1)
                      (loc_of_shr_record mrs1)); subst m2; lia).
  destruct m2 as [|p2|p2] eqn:Em2; try lia.
  pose proof (shr_fexp_positive p2 e1 loc_Exact He1) as H2.
  pose proof (shr_fexp_exponent (Zpos p2) e1 loc_Exact) as H3.
  destruct (shr_fexp prec emax (Zpos p2) e1 loc_Exact) as [mrs2 e2].
  cbn [fst snd] in H2, H3.
  destruct (shr_m mrs2) as [|p|p]; try lia.
  destruct (e2 <=? emax - prec); [split; [reflexivity | exact H3] |
                                  reflexivity].
Qed.

(** Rounding an integer mantissa with its exponent. *)
Lemma binary_round_positive (s : bool) (m : positive) (e : Z) :
  emin <= e ->
  match binary_round prec emax s m e with
  | S754_infinity s' => s' = s
  | S754_finite s' _ e' => s' = s /\ emin <= e'
  | _ => False
  end.
Proof.
  intros He. unfold binary_round, shl_align.
  destruct (fexp prec emax (Zpos (digits2_pos m) + e) - e) as [|k|k] eqn:Hk;
    apply binary_round_aux_positive; try exact He.
  unfold fexp, emin, SpecFloat.emin in *. lia.
Qed.

End Rounding.

(** ** The operations on numbers that are not negative *)

Section Operations.

Local Open Scope Z_scope.

Import Binary32.

Lemma emin_value : emin = -149.
Proof. reflexivity. Qed.

Lemma strictly_positive_non_negative (x : float32) :
  strictly_positive x -> non_negative x.
Proof.
  destruct x as [[|] | [|] | | [|] m e];
    cbn [strictly_positive non_negative]; tauto.
Qed.

Lemma non_negative_not_nan (x : float32) : non_negative x -> not_nan x.
Proof.
  destruct x as [[|] | [|] | | [|] m e];
    cbn [not_nan non_negative]; tauto.
Qed.


Lemma binary_normalize_positive (p : positive) (e : Z) :
  emin <= e ->
  strictly_positive (binary_normalize prec emax (Zpos p) e false).
Proof.
  intros He. cbn [binary_normalize].
  pose proof (binary_round_positive false p e He) as H.
  destruct (binary_round prec emax false p e) as [s|s| |s m e'];
    cbn [strictly_positive]; try tauto.
  - now subst s.
  - destruct H as [-> H]. exact H.
Qed.

Lemma of_Z_non_negative (z : Z) : 0 <= z -> non_negative (of_Z z).
Proof.
  intros Hz. destruct z as [|p|p]; [exact I | | lia].
  apply strictly_positive_non_negative.
  apply binary_normalize_positive. rewrite emin_value. lia.
Qed.




(** The difference of a finite number with itself is [+0]. *)
Lemma fsub_diag (x : float32) :
  is_finite x = true -> fsub x x = zero.
Proof.
  destruct x as [[|] | [|] | | s m e];
    cbn [fadd fsub fmul fdiv fsqrt SFadd SFsub SFmul SFdiv SFsqrt non_negative
         strictly_positive not_nan is_finite cond_Zopp xorb negb]; try discriminate; try reflexivity.
  intros _. rewrite Z.sub_diag. reflexivity.
Qed.


Lemma SFdiv_core_binary_nonneg (m1 : positive) (e1 : Z) (m2 : positive)
    (e2 : Z) :
  0 <= fst (fst (SFdiv_core_binary prec emax (Zpos m1) e1 (Zpos m2) e2)).
Proof.
  unfold SFdiv_core_binary.
  set (s := _ - _ - _).
  set (m' := match s with Z0 => Zpos m1 | Zpos _ => Z.shiftl (Zpos m1) s
             | Zneg _ => 0 end).
  assert (Hm' : 0 <= m').
  { subst m'. destruct s; try lia. apply Z.shiftl_nonneg. lia. }
  destruct (Z.div_eucl m' (Zpos m2)) as [q r] eqn:E. cbn [fst].
  assert (Hq : q = m' / Zpos m2) by (unfold Z.div; now rewrite E).
  rewrite Hq. apply Z.div_pos; lia.
Qed.

(** A quotient by a finite positive number. *)
Lemma fdiv_non_negative (x : float32) (m : positive) (e : Z) :
  non_negative x -> non_negative (fdiv x (S754_finite false m e)).
Proof.
  destruct x as [[|] | [|] | | [|] mx ex];
    cbn [fadd fsub fmul fdiv fsqrt SFadd SFsub SFmul SFdiv SFsqrt non_negative
         strictly_positive not_nan is_finite cond_Zopp xorb negb]; try tauto.
  intros _.
  pose proof (SFdiv_core_binary_nonneg mx ex m e) as Hq.
  destruct (SFdiv_core_binary prec emax (Zpos mx) ex (Zpos m) e)
    as [[mz ez] lz]. cbn [fst] in Hq.
  pose proof (binary_round_aux_nonneg false mz ez lz Hq) as H.
  destruct (binary_round_aux prec emax false mz ez lz)
    as [s'|s'| |s' m' e']; cbn [non_negative].
  - now subst s'.
  - now subst s'.
  - exact H.
  - destruct H as [-> H]. exact H.
Qed.


(** ** Integers below [2^127] are binary32 numbers *)

Lemma digits2_pos_iter_xO (p k : positive) :
  Zpos (digits2_pos (Pos.iter xO p k)) = Zpos (digits2_pos p) + Zpos k.
Proof.
  induction k as [|k IH] using Pos.peano_ind.
  - cbn [Pos.iter digits2_pos]. lia.
  - rewrite Pos.iter_succ. cbn [digits2_pos]. lia.
Qed.

Lemma Zdigits2_log2 (z : Z) : 0 < z -> Zdigits2 z = Z.log2 z + 1.
Proof.
  destruct z as [|p|p]; try lia. intros _. cbn [Zdigits2].
  assert (Hsize : forall q, digits2_pos q = Pos.size q)
    by (induction q as [q IH | q IH |]; cbn [digits2_pos Pos.size];
        now rewrite ?IH).
  rewrite Hsize. destruct p; cbn [Z.log2 Pos.size]; lia.
Qed.

Lemma shr_fexp_exponent_max (m e : Z) (l : location) :
  snd (shr_fexp prec emax m e l)
  = Z.max e (fexp prec emax (Zdigits2 m + e)).
Proof.
  unfold shr_fexp, shr.
  destruct (fexp prec emax (Zdigits2 m + e) - e) as [|k|k] eqn:Hk;
    cbn [snd]; lia.
Qed.

(** Rounding steps keep the magnitude, the number of digits plus the
    exponent, of a positive mantissa whose exponent is in range. *)
Lemma shr_fexp_magnitude (m : positive) (e : Z) (l : location) :
  emin <= e ->
  Zdigits2 (shr_m (fst (shr_fexp prec emax (Zpos m) e l)))
  + snd (shr_fexp prec emax (Zpos m) e l)
  = Zpos (digits2_pos m) + e.
Proof.
  intros He. unfold shr_fexp, shr.
  destruct (fexp prec emax (Zdigits2 (Zpos m) + e) - e) as [|k|k] eqn:Hk;
    cbn [fst snd]; rewrite ?iter_shr_1; rewrite ?shr_m_of_loc;
    try reflexivity; try lia.
  cbn [Zdigits2] in Hk.
  assert (Hkd : Zpos k < Zpos (digits2_pos m))
    by (unfold fexp, emin, SpecFloat.emin, prec, emax in *; lia).
  pose proof (shiftr_positive m k Hkd) as Hpos.
  rewrite (Zdigits2_log2 _ Hpos), Z.log2_shiftr by lia.
  pose proof (Zdigits2_log2 (Zpos m) (Pos2Z.is_pos m)) as Hd.
  cbn [Zdigits2] in Hd. lia.
Qed.

Lemma round_nearest_even_digits (m : Z) (l : location) :
  0 < m -> Zdigits2 (round_nearest_even m l) <= Zdigits2 m + 1.
Proof.
  intros Hm.
  pose proof (round_nearest_even_le m l) as Hle.
  assert (Hup : round_nearest_even m l <= m + 1).
  { destruct l as [|[| |]]; cbn [round_nearest_even]; try lia.
    destruct (Z.even m); lia. }
  rewrite !Zdigits2_log2 by lia.
  pose proof (Z.log2_le_mono _ _ Hup) as H1.
  pose proof (Z.log2_succ_le m) as H2. unfold Z.succ in H2. lia.
Qed.

(** Rounding does not overflow below [2^127]. *)
Lemma binary_round_aux_finite (s : bool) (m : positive) (e : Z)
    (l : location) :
  emin <= e -> e <= 104 -> Zpos (digits2_pos m) + e <= 127 ->
  exists m' e', binary_round_aux prec emax s (Zpos m) e l
                = S754_finite s m' e'.
Proof.
  intros He He104 Hg. unfold binary_round_aux.
  pose proof (shr_fexp_positive m e l He) as H1.
  pose proof (shr_fexp_exponent (Zpos m) e l) as He1.
  pose proof (shr_fexp_exponent_max (Zpos m) e l) as Hmax1.
  pose proof (shr_fexp_magnitude m e l He) as Hg1.
  destruct (shr_fexp prec emax (Zpos m) e l) as [mrs1 e1].
  cbn [fst snd] in H1, He1, Hmax1, Hg1.
  pose proof (round_nearest_even_le (shr_m mrs1) (loc_of_shr_record mrs1))
    as Hle.
  pose proof (round_nearest_even_digits (shr_m mrs1)
                (loc_of_shr_record mrs1) H1) as Hd2.
  destruct (round_nearest_even (shr_m mrs1) (loc_of_shr_record mrs1))
    as [|p2|p2] eqn:Em2; try lia.
  pose proof (shr_fexp_positive p2 e1 loc_Exact He1) as H2.
  pose proof (shr_fexp_exponent_max (Zpos p2) e1 loc_Exact) as Hmax2.
  destruct (shr_fexp prec emax (Zpos p2) e1 loc_Exact) as [mrs2 e2].
  cbn [fst snd] in H2, Hmax2.
  destruct (shr_m mrs2) as [|p|p]; try lia.
  assert (He2 : e2 <= emax - prec).
  { cbn [Zdigits2] in *.
    unfold fexp, emin, SpecFloat.emin, prec, emax in *. lia. }
  apply Z.leb_le in He2. rewrite He2. eexists. eexists. reflexivity.
Qed.

Lemma shl_align_magnitude (m : positive) (e e' : Z) :
  snd (shl_align m e e') <= e /\
  Z.min e e' <= snd (shl_align m e e') /\
  Zpos (digits2_pos (fst (shl_align m e e'))) + snd (shl_align m e e')
  = Zpos (digits2_pos m) + e.
Proof.
  unfold shl_align. destruct (e' - e) as [|k|k] eqn:Hk; cbn [fst snd].
  - lia.
  - lia.
  - rewrite digits2_pos_iter_xO. lia.
Qed.

(** An integer from 1 to [2^127] rounds to a finite positive binary32
    number. *)
Lemma of_Z_finite (z : Z) :
  0 < z < 2 ^ 127 -> exists m e, of_Z z = S754_finite false m e.
Proof.
  intros [Hz Hlt]. destruct z as [|p|p]; try lia.
  pose proof (digits2_pos_lower p) as Hd.
  assert (Hd127 : Zpos (digits2_pos p) <= 127).
  { destruct (Z_le_gt_dec (Zpos (digits2_pos p)) 127) as [H | H];
      [exact H | exfalso].
    assert (2 ^ 127 <= 2 ^ (Zpos (digits2_pos p) - 1))
      by (apply Z.pow_le_mono_r; lia).
    lia. }
  unfold of_Z. cbn [binary_normalize]. unfold binary_round.
  pose proof (shl_align_magnitude p 0
                (fexp prec emax (Zpos (digits2_pos p) + 0)))
    as (Hle & Hge & Hmag).
  destruct (shl_align p 0 (fexp prec emax (Zpos (digits2_pos p) + 0)))
    as [mz ez].
  cbn [fst snd] in Hle, Hge, Hmag.
  apply binary_round_aux_finite.
  - unfold fexp, emin, SpecFloat.emin, prec, emax in *. lia.
  - lia.
  - lia.
Qed.

(** ** Sums *)


(** Zeros add up to zero, in every order. *)
Lemma sum_of_zeros (l : list float32) (s : float32) :
  sum_of l s -> Forall (eq zero) l -> s = zero.
Proof.
  induction 1 as [| x | l l1 l2 a b Hperm H1 IH1 H2 IH2]; intros Hl.
  - reflexivity.
  - now inversion Hl.
  - assert (Hl' : Forall (eq zero) (l1 ++ l2))
      by (eapply Permutation_Forall; eassumption).
    apply Forall_app in Hl'. destruct Hl' as [Hl1 Hl2].
    rewrite (IH1 Hl1), (IH2 Hl2). reflexivity.
Qed.

Lemma fold_left_sum_of (l l0 : list float32) (a : float32) :
  sum_of l0 a -> sum_of (l0 ++ l) (fold_left fadd l a).
Proof.
  revert l0 a. induction l as [|x l IH]; intros l0 a H0; cbn [fold_left].
  - now rewrite app_nil_r.
  - replace (l0 ++ x :: l) with ((l0 ++ [x]) ++ l)
      by (now rewrite <- app_assoc).
    apply IH. eapply sum_of_split; [reflexivity | exact H0 | constructor].
Qed.

Lemma sum_left_to_right_valid : valid_reduction sum_left_to_right.
Proof.
  intros l. unfold sum_left_to_right.
  apply (fold_left_sum_of l [] zero). constructor.
Qed.

End Operations.

(** ** The transform on an image of rank 3, in binary32 *)

Section Binary32Rank3.

Import Binary32.

Variable reduce_sum : list float32 -> float32.

Lemma binary32_map_nth_seq (xs : list float32) :
  map (fun o => nth o xs zero) (seq 0 (length xs)) = xs.
Proof.
  induction xs as [|x xs IH]; cbn [length seq map nth].
  - reflexivity.
  - f_equal. rewrite <- seq_shift, map_map. exact IH.
Qed.

Lemma binary32_strided_all (xs : list float32) :
  strided xs 1 0 (length xs) = xs.
Proof.
  unfold strided.
  rewrite (map_ext (fun o => nth (o * 1 + 0) xs zero)
                   (fun o => nth o xs zero)).
  - apply binary32_map_nth_seq.
  - intros o. f_equal. lia.
Qed.

Lemma binary32_broadcast_scalar (op : float32 -> float32 -> float32)
    (x : Tensor float32) (m : float32) :
  broadcast op x (mkTensor [] [m])
  = mkTensor (shape x) (map (fun v => op v m) (data x)).
Proof.
  unfold broadcast. cbn [data length]. f_equal.
  rewrite <- (map_snd_combine_seq (fun v => op v m) (data x) 0).
  apply map_ext. intros [i v]. cbn [fst snd].
  now rewrite Nat.mod_1_r.
Qed.

Lemma binary32_reduce_mean_rank3 (x : Tensor float32) (h w c : nat) :
  shape x = [h; w; c] -> well_formed x ->
  reduce_mean_leading reduce_sum 3 x
  = Ok (mkTensor [] [mean_of reduce_sum (data x)]).
Proof.
  intros Hs Hwf. unfold reduce_mean_leading, rank. rewrite Hs.
  cbn [length Nat.leb firstn skipn numel fold_right seq map].
  unfold well_formed in Hwf. rewrite Hs in Hwf. cbn [numel fold_right] in Hwf.
  rewrite <- Hwf, binary32_strided_all. reflexivity.
Qed.

(** On a well-formed image of rank 3 the transform is the standardization
    formula on the scaled intensities, every step in binary32, with one
    axis appended. *)
Lemma binary32_normalize_img_rank3 (image : Tensor Z) (label : Z)
    (h w c : nat) :
  shape image = [h; w; c] -> well_formed image ->
  normalize_img reduce_sum image label
  = Ok (mkTensor [h; w; c; 1%nat] (standardize reduce_sum (pixels image)),
        tf_one_hot label NUM_CLASSES).
Proof.
  intros Hs Hwf. unfold normalize_img, tf_nn_moments.
  set (x := div_scalar (tf_cast image) (of_Z 255)).
  assert (Hxs : shape x = [h; w; c]) by exact Hs.
  assert (Hxd : data x = pixels image).
  { subst x. unfold div_scalar, tf_cast, tensor_map, pixels. cbn [data].
    now rewrite map_map. }
  assert (Hxwf : well_formed x).
  { unfold well_formed. rewrite Hxs, Hxd. unfold pixels.
    rewrite length_map. unfold well_formed in Hwf. now rewrite Hs in Hwf. }
  rewrite (binary32_reduce_mean_rank3 x h w c Hxs Hxwf). cbn [bind].
  rewrite binary32_broadcast_scalar.
  rewrite (binary32_reduce_mean_rank3 _ h w c).
  - cbn [bind]. unfold tf_sqrt, add_scalar, tensor_map.
    cbn [data shape map]. rewrite !binary32_broadcast_scalar.
    cbn [data shape].
    rewrite expand_dims_last. cbn [bind data shape]. rewrite Hxs, Hxd.
    unfold standardize, denominator, variance_of. rewrite !map_map.
    reflexivity.
  - unfold tensor_map. cbn [shape]. exact Hxs.
  - unfold well_formed, tensor_map. cbn [shape data].
    rewrite !length_map. exact Hxwf.
Qed.

End Binary32Rank3.

(** ** The scaled intensities and the moments *)

Section Binary32Moments.

Import Binary32.

Lemma of_Z_255 : of_Z 255 = S754_finite false 16711680 (-16).
Proof. reflexivity. Qed.

Lemma epsilon_is_one_millionth : epsilon = fdiv (of_Z 1) (of_Z 1000000).
Proof. reflexivity. Qed.




(** A [uint8] intensity divided by 255 is a finite number from 0 to 1. *)
Lemma uint8_scaled_checked :
  forallb (fun p => in_unit_interval (fdiv (of_Z p) (of_Z 255)))
          (map Z.of_nat (seq 0 256)) = true.
Proof. vm_compute. reflexivity. Qed.

Lemma uint8_scaled (p : Z) :
  is_uint8 p ->
  let x := fdiv (of_Z p) (of_Z 255) in
  non_negative x /\ is_finite x = true /\
  fle zero x = true /\ fle x one = true.
Proof.
  intros [H0 H255]. cbv zeta. split.
  - rewrite of_Z_255. apply fdiv_non_negative, of_Z_non_negative. exact H0.
  - pose proof uint8_scaled_checked as Hall.
    rewrite forallb_forall in Hall.
    assert (Hin : In p (map Z.of_nat (seq 0 256))).
    { apply in_map_iff. exists (Z.to_nat p).
      split; [lia | apply in_seq; lia]. }
    specialize (Hall p Hin). unfold in_unit_interval in Hall.
    apply andb_true_iff in Hall. destruct Hall as [Hall H1].
    apply andb_true_iff in Hall. destruct Hall as [Hf Hz].
    repeat split; assumption.
Qed.


(** The number of entries of an image of fewer than [2^127] pixels
    rounds to a finite binary32 number. *)
Lemma of_nat_finite (n : nat) :
  (0 < Z.of_nat n < 2 ^ 127)%Z ->
  exists m e, of_nat n = S754_finite false m e.
Proof. intros H. unfold of_nat. now apply of_Z_finite. Qed.

Variable reduce_sum : list float32 -> float32.
Hypothesis reduce_sum_valid : valid_reduction reduce_sum.




(** The moments of a list of zeros. *)
Lemma mean_of_zeros (n : nat) :
  (0 < Z.of_nat n < 2 ^ 127)%Z ->
  mean_of reduce_sum (repeat zero n) = zero.
Proof.
  intros Hn. unfold mean_of. rewrite repeat_length.
  destruct (of_nat_finite _ Hn) as (m & e & ->).
  rewrite (sum_of_zeros _ _ (reduce_sum_valid _)); [reflexivity |].
  apply Forall_forall. intros x Hx. symmetry. exact (repeat_spec _ _ _ Hx).
Qed.

Lemma variance_of_zeros (n : nat) :
  (0 < Z.of_nat n < 2 ^ 127)%Z ->
  variance_of reduce_sum (repeat zero n) = zero.
Proof.
  intros Hn. unfold variance_of. rewrite (mean_of_zeros n Hn).
  rewrite map_repeat. apply (mean_of_zeros n Hn).
Qed.

(** The moments of a constant list whose mean comes out exact. *)
Lemma variance_of_constant (x : float32) (n : nat) :
  (0 < Z.of_nat n < 2 ^ 127)%Z -> is_finite x = true ->
  mean_of reduce_sum (repeat x n) = x ->
  variance_of reduce_sum (repeat x n) = zero.
Proof.
  intros Hn Hf Hm. unfold variance_of. rewrite Hm.
  rewrite map_repeat, (fsub_diag x Hf).
  apply (mean_of_zeros n Hn).
Qed.

Lemma standardize_constant (x : float32) (n : nat) :
  (0 < Z.of_nat n < 2 ^ 127)%Z -> is_finite x = true ->
  mean_of reduce_sum (repeat x n) = x ->
  denominator reduce_sum (repeat x n) = epsilon /\
  standardize reduce_sum (repeat x n) = repeat zero n.
Proof.
  intros Hn Hf Hm.
  assert (Hd : denominator reduce_sum (repeat x n) = epsilon).
  { unfold denominator. rewrite (variance_of_constant x n Hn Hf Hm).
    reflexivity. }
  split; [exact Hd |].
  unfold standardize. rewrite Hd, Hm, map_repeat, (fsub_diag x Hf).
  reflexivity.
Qed.

End Binary32Moments.

(** ** Means and variances of exact values *)




(** ** C9: the denominator of the standardization *)






(** ** C10: constant images *)

(** C10 (amended).  A non-empty constant image (of fewer than [2^127]
    pixels) comes out all zero when the mean that binary32 arithmetic
    finds for it is its intensity exactly, as it is for the all-zero
    image, whatever its shape and the order of the sums: then the variance is 0, the denominator is the guard [1e-6]
    itself, every entry of the result is 0, and the result has mean 0 and
    variance 0, not 1. *)
Theorem constant_image_with_exact_mean_normalizes_to_zero
    (reduce_sum : list Binary32.float32 -> Binary32.float32)
    (h w c : nat) (p label : Z) :
  Binary32.valid_reduction reduce_sum ->
  is_uint8 p ->
  (0 < Z.of_nat (numel [h; w; c]) < 2 ^ 127)%Z ->
  let n := numel [h; w; c] in
  let x := Binary32.fdiv (Binary32.of_Z p) (Binary32.of_Z 255) in
  (p = 0%Z \/ Binary32.mean_of reduce_sum (repeat x n) = x) ->
  Binary32.mean_of reduce_sum (repeat x n) = x /\
  Binary32.variance_of reduce_sum (repeat x n) = Binary32.zero /\
  Binary32.denominator reduce_sum (repeat x n) = Binary32.epsilon /\
  Binary32.normalize_img reduce_sum (constant_image [h; w; c] p) label
  = Ok (mkTensor [h; w; c; 1%nat] (repeat Binary32.zero n),
        Binary32.tf_one_hot label NUM_CLASSES) /\
  Binary32.mean_of reduce_sum (repeat Binary32.zero n) = Binary32.zero /\
  Binary32.variance_of reduce_sum (repeat Binary32.zero n) = Binary32.zero.
Proof.
  intros Hvalid Hp Hn. cbv zeta. intros Hmean.
  set (n := numel [h; w; c]) in *.
  set (x := Binary32.fdiv (Binary32.of_Z p) (Binary32.of_Z 255)) in *.
  destruct (uint8_scaled p Hp) as (_ & Hfin & _). fold x in Hfin.
  assert (Hm : Binary32.mean_of reduce_sum (repeat x n) = x).
  { destruct Hmean as [-> | Hm]; [| exact Hm].
    exact (mean_of_zeros reduce_sum Hvalid n Hn). }
  destruct (standardize_constant reduce_sum Hvalid x n Hn Hfin Hm)
    as [Hd Hst].
  split; [exact Hm |].
  split; [exact (variance_of_constant reduce_sum Hvalid x n Hn Hfin Hm) |].
  split; [exact Hd |].
  split.
  - rewrite (binary32_normalize_img_rank3 reduce_sum
               (constant_image [h; w; c] p) label h w c eq_refl
               (constant_image_well_formed _ _)).
    unfold Binary32.pixels, constant_image. cbn [data]. rewrite map_repeat.
    fold x. fold n. rewrite Hst. reflexivity.
  - split; [exact (mean_of_zeros reduce_sum Hvalid n Hn) |
            exact (variance_of_zeros reduce_sum Hvalid n Hn)].
Qed.

Lemma constant_image_with_exact_mean_normalizes_to_zero_witness :
  Binary32.normalize_img Binary32.sum_left_to_right black_mnist_image 0
  = Ok (mkTensor [28; 28; 1; 1]%nat (repeat Binary32.zero 784),
        Binary32.tf_one_hot 0 NUM_CLASSES).
Proof.
  destruct (constant_image_with_exact_mean_normalizes_to_zero
              Binary32.sum_left_to_right 28 28 1 0%Z 0%Z
              sum_left_to_right_valid)
    as (_ & _ & _ & H & _).
  - unfold is_uint8. lia.
  - vm_compute. split; reflexivity.
  - left. reflexivity.
  - exact H.
Defined.

(** Three pixels of intensity 173: the sum of three times 173/255 is
    rounded, a third of it is one unit in the last place off, and the
    guard magnifies the error: every entry comes out as
    15099972 * 2^-28, about 0.0563. *)
Lemma constant_image_173_is_not_normalized_to_zero :
  ~ Binary32.constant_images_as_specified.
Proof.
  intros H.
  destruct (H Binary32.sum_left_to_right [1; 1; 3]%nat 173%Z 0%Z
              sum_left_to_right_valid eq_refl)
    as (out & enc & Hrun & Hzero).
  - cbn. lia.
  - unfold is_uint8. lia.
  - vm_compute in Hrun. injection Hrun as <- _.
    cbn [data] in Hzero. inversion Hzero as [| ? ? Hx _].
    discriminate Hx.
Qed.

(** ** C3: what standardization achieves *)






(** ** C6: batching *)

Lemma groups_nil {A} (fuel n : nat) : @groups A fuel n [] = [].
Proof. destruct fuel; reflexivity. Qed.

(** With enough fuel the groups put together are the list: nothing is
    lost and the order is kept. *)
Lemma groups_concat {A} (n fuel : nat) (l : list A) :
  (0 < n)%nat -> (length l <= fuel)%nat -> concat (groups fuel n l) = l.
Proof.
  intros Hn. revert l. induction fuel as [|fuel IH]; intros l Hl.
  - destruct l; [reflexivity | simpl in Hl; lia].
  - destruct l as [|x l]; [reflexivity |].
    cbn [groups concat]. rewrite IH.
    + apply firstn_skipn.
    + rewrite length_skipn. cbn [length] in *; lia.
Qed.

Lemma groups_count {A} (n fuel : nat) (l : list A) :
  (0 < n)%nat -> (length l <= fuel)%nat ->
  length (groups fuel n l) = ((length l + (n - 1)) / n)%nat.
Proof.
  intros Hn. revert l. induction fuel as [|fuel IH]; intros l Hl.
  - destruct l; [| simpl in Hl; lia]. simpl.
    symmetry. apply Nat.div_small. lia.
  - destruct l as [|x l].
    + simpl. symmetry. apply Nat.div_small. lia.
    + cbn [groups length]. rewrite IH by (rewrite length_skipn; cbn [length] in *; lia).
      rewrite length_skipn. cbn [length] in *.
      remember (S (length l)) as m eqn:Em.
      assert (Hm : (0 < m)%nat) by lia.
      destruct (Nat.le_gt_cases m n) as [Hle | Hgt].
      * replace (m - n)%nat with 0%nat by lia.
        rewrite (Nat.div_small (0 + (n - 1)) n) by lia.
        apply (Nat.div_unique _ _ 1 (m - 1)); lia.
      * replace (m + (n - 1))%nat with ((m - n + (n - 1)) + 1 * n)%nat by lia.
        rewrite Nat.div_add by lia. lia.
Qed.

(** Every group but the last is full. *)
Lemma groups_full {A} (n fuel : nat) (l : list A) (i : nat) :
  (0 < n)%nat -> (length l <= fuel)%nat ->
  (S i < length (groups fuel n l))%nat ->
  length (nth i (groups fuel n l) []) = n.
Proof.
  intros Hn. revert l i. induction fuel as [|fuel IH]; intros l i Hl Hi.
  - simpl in Hi. lia.
  - destruct l as [|x l]; [simpl in Hi; lia |].
    cbn [groups length] in Hi. cbn [groups].
    assert (Hrest : skipn n (x :: l) <> []).
    { intros Hnil. rewrite Hnil, groups_nil in Hi. simpl in Hi. lia. }
    destruct i as [|i].
    + cbn [nth]. apply firstn_length_le.
      destruct (Nat.le_gt_cases n (length (x :: l))) as [Hle | Hgt];
        [exact Hle |].
      exfalso. apply Hrest. apply skipn_all2. lia.
    + cbn [nth]. apply IH.
      * rewrite length_skipn. cbn [length] in *; lia.
      * lia.
Qed.

(** The last group holds what is left: a full group when the batch size
    divides the number of elements, the remainder otherwise. *)
Lemma groups_last {A} (n fuel : nat) (l : list A) :
  (0 < n)%nat -> (length l <= fuel)%nat -> l <> [] ->
  length (last (groups fuel n l) [])
  = (if (length l mod n =? 0) then n else length l mod n)%nat.
Proof.
  intros Hn. revert l. induction fuel as [|fuel IH]; intros l Hl Hne.
  - destruct l; [congruence | simpl in Hl; lia].
  - destruct l as [|x l]; [congruence |].
    cbn [groups]. remember (length (x :: l)) as m eqn:Em.
    assert (Hm : (0 < m)%nat) by (subst m; cbn [length]; lia).
    destruct (Nat.le_gt_cases m n) as [Hle | Hgt].
    + rewrite skipn_all2 by lia. rewrite groups_nil. cbn [last].
      rewrite firstn_all2 by lia. rewrite <- Em.
      destruct (Nat.eq_dec m n) as [-> | Hmn].
      * now rewrite Nat.Div0.mod_same, Nat.eqb_refl.
      * rewrite Nat.mod_small by lia.
        destruct (Nat.eqb_spec m 0); [lia | reflexivity].
    + assert (Hsk : length (skipn n (x :: l)) = (m - n)%nat)
        by (rewrite length_skipn; lia).
      assert (Hrest : skipn n (x :: l) <> []).
      { intros Hnil. rewrite Hnil in Hsk. simpl in Hsk. lia. }
      assert (Hfuel : (length (skipn n (x :: l)) <= fuel)%nat)
        by (rewrite Hsk; cbn [length] in *; lia).
      assert (Hg : groups fuel n (skipn n (x :: l)) <> []).
      { destruct fuel as [|fuel']; [lia |].
        destruct (skipn n (x :: l)); [congruence | discriminate]. }
      destruct (groups fuel n (skipn n (x :: l))) as [|g gs] eqn:Hgs;
        [congruence |].
      change (last (firstn n (x :: l) :: g :: gs) [])
        with (last (g :: gs) (@nil A)).
      rewrite <- Hgs, IH by assumption.
      rewrite Hsk.
      replace (m mod n)%nat with ((m - n) mod n)%nat; [reflexivity |].
      replace m with ((m - n) + 1 * n)%nat at 2 by lia.
      now rewrite Nat.Div0.mod_add.
Qed.

(** C6.  Batching a dataset of [N] elements with batch size 128 succeeds
    and produces exactly [ceil(N / 128)] batches; every batch but the last
    has 128 elements; when there is any element the last batch has
    [N mod 128] elements, or 128 when 128 divides [N]; and the batches put
    together are the dataset in its order. *)
Theorem batch_count_and_sizes {A} (ds : Dataset A) :
  exists batches,
    ds_batch BATCH_SIZE ds = Ok batches /\
    length (elements batches)
      = ((length (elements ds) + 127) / 128)%nat /\
    (forall i, (S i < length (elements batches))%nat ->
               length (nth i (elements batches) []) = 128%nat) /\
    (elements ds <> [] ->
     length (last (elements batches) [])
     = (if (length (elements ds) mod 128 =? 0) then 128
        else length (elements ds) mod 128)%nat) /\
    concat (elements batches) = elements ds.
Proof.
  unfold ds_batch, BATCH_SIZE. cbn [Nat.eqb].
  eexists. split; [reflexivity |]. cbn [elements].
  assert (H128 : (0 < 128)%nat) by lia.
  split; [apply (groups_count 128); [exact H128 | apply Nat.le_refl] |].
  split; [intros i Hi;
          apply (groups_full 128); [exact H128 | apply Nat.le_refl | exact Hi] |].
  split; [intros Hne;
          apply (groups_last 128); [exact H128 | apply Nat.le_refl | exact Hne] |].
  apply groups_concat; [exact H128 | apply Nat.le_refl].
Qed.

(** A dataset of 300 elements: batches of 128, 128 and 44. *)
Example batch_300 :
  option_map (fun d => map (@length nat) (elements d))
    (match ds_batch BATCH_SIZE (from_source (seq 0 300)) with
     | Ok d => Some d
     | Raise _ => None
     end)
  = Some [128; 128; 44]%nat.
Proof. vm_compute. reflexivity. Qed.

(** ** C7: the two input pipelines *)

Lemma map_result_Forall2 {A B} (f : A -> result B) (l : list A) (ys : list B) :
  map_result f l = Ok ys <-> Forall2 (fun x y => f x = Ok y) l ys.
Proof.
  revert ys. induction l as [|x l IH]; intros ys; cbn [map_result].
  - split.
    + intros H. injection H as <-. constructor.
    + intros H. inversion H. reflexivity.
  - split.
    + destruct (f x) as [y | e] eqn:Hx; cbn [bind]; [| discriminate].
      destruct (map_result f l) as [ys' | e]; cbn [bind]; [| discriminate].
      intros H. injection H as <-. constructor; [exact Hx |].
      now apply IH.
    + intros H. inversion H as [| x' y l' ys' Hx Hrest]; subst.
      rewrite Hx. cbn [bind].
      apply IH in Hrest. rewrite Hrest. reflexivity.
Qed.

Lemma nth_split_at {A} (l : list A) (i : nat) (d : A) :
  (i < length l)%nat -> l = firstn i l ++ nth i l d :: skipn (S i) l.
Proof.
  revert i. induction l as [|x l IH]; intros i Hi.
  - simpl in Hi. lia.
  - destruct i as [|i]; [reflexivity |].
    cbn [firstn nth skipn app]. f_equal. apply IH. simpl in Hi. lia.
Qed.

Lemma remove_nth_split {A} (l : list A) (i : nat) :
  remove_nth i l = firstn i l ++ skipn (S i) l.
Proof.
  revert i. induction l as [|x l IH]; intros i.
  - destruct i; reflexivity.
  - destruct i as [|i]; [reflexivity |].
    cbn [remove_nth firstn skipn app]. f_equal. apply IH.
Qed.

(** The shuffle buffer emits every element once: with enough steps, and a
    buffer that is empty only when the input is, the output is a
    permutation of buffer and input. *)
Lemma shuffle_steps_permutation {A} (draws : nat -> nat) (n : nat) :
  forall (k : nat) (buffer input : list A),
    (length buffer + length input <= n)%nat ->
    (buffer = [] -> input = []) ->
    Permutation (buffer ++ input) (shuffle_steps draws k n buffer input).
Proof.
  induction n as [|n IH]; intros k buffer input Hn Hb.
  - destruct buffer; [| simpl in Hn; lia].
    rewrite (Hb eq_refl). constructor.
  - cbn [shuffle_steps]. destruct buffer as [|b buffer'].
    + rewrite (Hb eq_refl). constructor.
    + set (buffer := b :: buffer') in *.
      assert (Hlen : (0 < length buffer)%nat) by (subst buffer; simpl; lia).
      set (i := (draws k mod length buffer)%nat).
      assert (Hi : (i < length buffer)%nat)
        by (subst i; apply Nat.mod_upper_bound; lia).
      pose proof (nth_split_at buffer i b Hi) as Hsplit.
      assert (Hparts : length buffer
                       = (length (firstn i buffer)
                          + S (length (skipn (S i) buffer)))%nat).
      { rewrite Hsplit at 1. rewrite length_app. reflexivity. }
      destruct input as [|y input'].
      * rewrite app_nil_r. rewrite Hsplit at 1.
        apply Permutation_sym, Permutation_cons_app, Permutation_sym.
        rewrite remove_nth_split.
        assert (HI : Permutation
                       ((firstn i buffer ++ skipn (S i) buffer) ++ [])
                       (shuffle_steps draws (S k) n
                          (firstn i buffer ++ skipn (S i) buffer) [])).
        { apply IH; [| reflexivity].
          rewrite length_app. cbn [length] in *. lia. }
        rewrite app_nil_r in HI. exact HI.
      * rewrite Hsplit at 1. rewrite <- app_assoc. cbn [app].
        apply Permutation_sym, Permutation_cons_app, Permutation_sym.
        eapply Permutation_trans; [| apply IH].
        -- replace ((firstn i buffer ++ y :: skipn (S i) buffer) ++ input')
             with (firstn i buffer ++ y :: skipn (S i) buffer ++ input')
             by (now rewrite <- app_assoc).
           apply Permutation_app_head.
           apply Permutation_sym, Permutation_cons_app, Permutation_refl.
        -- rewrite length_app. cbn [length] in *. lia.
        -- intros Hnil. apply (f_equal (@length A)) in Hnil.
           rewrite length_app in Hnil. cbn [length] in Hnil. lia.
Qed.

Lemma ds_shuffle_permutation {A} (size : nat) (draws : nat -> nat)
    (ds out : Dataset A) :
  ds_shuffle size draws ds = Ok out ->
  Permutation (elements ds) (elements out).
Proof.
  unfold ds_shuffle. destruct (Nat.eqb_spec size 0) as [Hz | Hnz];
    [discriminate |].
  intros H. injection H as <-. cbn [elements].
  rewrite <- (firstn_skipn size (elements ds)) at 1.
  apply shuffle_steps_permutation.
  - rewrite <- length_app, firstn_skipn. apply Nat.le_refl.
  - intros Hnil. destruct (elements ds) as [|x l]; [now rewrite skipn_nil |].
    destruct size; [congruence | discriminate].
Qed.

Lemma ds_batch_concat {A} (n : nat) (ds : Dataset A) (out : Dataset (list A)) :
  ds_batch n ds = Ok out -> concat (elements out) = elements ds.
Proof.
  unfold ds_batch. destruct (Nat.eqb_spec n 0) as [Hz | Hnz]; [discriminate |].
  intros H. injection H as <-. cbn [elements].
  apply groups_concat; [lia | apply Nat.le_refl].
Qed.

(** The order of arrival is an order of the same elements. *)
Lemma arrival_order_permutation {A} (arrival : nat -> nat) (l : list A) :
  Permutation l (arrival_order arrival l).
Proof.
  unfold arrival_order. rewrite <- (app_nil_r l) at 1.
  apply shuffle_steps_permutation; [cbn [length]; lia | reflexivity].
Qed.

(** With two elements in flight, a first choice of slot 1 swaps them. *)
Lemma arrival_order_swap {A} (arrival : nat -> nat) (x y : A) :
  (arrival 0 mod 2 = 1)%nat -> arrival_order arrival [x; y] = [y; x].
Proof.
  intros H. unfold arrival_order. cbn [length shuffle_steps].
  rewrite H. cbn [nth remove_nth length]. now rewrite Nat.mod_1_r.
Qed.

Lemma ds_map_autotune {A B} (f : A -> result B) (arrival : nat -> nat)
    (ds : Dataset A) :
  ds_map f AUTOTUNE arrival ds
  = (ys <- map_result f (arrival_order arrival (elements ds)) ;;
     Ok (mkDataset ys (lineage ds ++ [OpMap AUTOTUNE]))).
Proof. reflexivity. Qed.

(** A map that succeeds on a list succeeds on every order of it, with
    the same results in that order. *)
Lemma map_result_permutation {A B} (f : A -> result B) (l l' : list A)
    (ys : list B) :
  Permutation l l' -> map_result f l = Ok ys ->
  exists ys', map_result f l' = Ok ys' /\ Permutation ys ys'.
Proof.
  intros Hp H. apply map_result_Forall2 in H.
  destruct (Permutation_Forall2 Hp H) as (ys' & Hperm & H').
  exists ys'. split; [now apply map_result_Forall2 | exact Hperm].
Qed.

(** [load_datasets] in one expression. *)
Lemma load_datasets_unfold (src_train src_test : list RawSample)
    (draws : nat -> nat) :
  load_datasets src_train src_test draws
  = match map_result normalize_sample
            (arrival_order (substream 0 draws) src_train) with
    | Raise e => Raise e
    | Ok tr =>
        match map_result normalize_sample
                (arrival_order (substream 1 draws) src_test) with
        | Raise e => Raise e
        | Ok te =>
            let shuffled :=
              shuffle_steps (substream 2 draws) 0 (length tr)
                            (firstn 1000 tr) (skipn 1000 tr) in
            Ok (mkDataset (groups (length shuffled) 128 shuffled)
                  [OpMap AUTOTUNE; OpCache; OpShuffle 1000; OpBatch 128;
                   OpPrefetch AUTOTUNE],
                mkDataset (groups (length te) 128 te)
                  [OpMap AUTOTUNE; OpBatch 128; OpCache;
                   OpPrefetch AUTOTUNE])
        end
    end.
Proof.
  unfold load_datasets, from_source. rewrite !ds_map_autotune.
  cbn [elements lineage].
  destruct (map_result normalize_sample
              (arrival_order (substream 0 draws) src_train)) as [tr | e];
    cbn [bind]; [| reflexivity].
  unfold ds_shuffle, ds_batch, BATCH_SIZE. cbn [Nat.eqb bind].
  destruct (map_result normalize_sample
              (arrival_order (substream 1 draws) src_test)) as [te | e];
    cbn [bind]; reflexivity.
Qed.

(** What a successful load returns: the batches of the transformed
    samples, those of the test split in the order in which the map hands
    them over, those of the train split shuffled after that. *)
Lemma load_datasets_inv (src_train src_test : list RawSample)
    (draws : nat -> nat) (ds_train ds_test : Dataset (list Sample)) :
  load_datasets src_train src_test draws = Ok (ds_train, ds_test) ->
  exists tr te sh,
    map_result normalize_sample
      (arrival_order (substream 0 draws) src_train) = Ok tr /\
    map_result normalize_sample
      (arrival_order (substream 1 draws) src_test) = Ok te /\
    Permutation tr sh /\
    elements ds_train = groups (length sh) 128 sh /\
    elements ds_test = groups (length te) 128 te /\
    lineage ds_train
      = [OpMap AUTOTUNE; OpCache; OpShuffle 1000; OpBatch 128;
         OpPrefetch AUTOTUNE] /\
    lineage ds_test
      = [OpMap AUTOTUNE; OpBatch 128; OpCache; OpPrefetch AUTOTUNE].
Proof.
  rewrite load_datasets_unfold.
  destruct (map_result normalize_sample
              (arrival_order (substream 0 draws) src_train))
    as [tr | e] eqn:Htr; [| discriminate].
  destruct (map_result normalize_sample
              (arrival_order (substream 1 draws) src_test))
    as [te | e] eqn:Hte; [| discriminate].
  cbv zeta.
  remember (shuffle_steps (substream 2 draws) 0 (length tr) (firstn 1000 tr)
              (skipn 1000 tr)) as sh eqn:Esh.
  intros H. injection H as <- <-.
  exists tr, te, sh. repeat split; try reflexivity.
  subst sh. rewrite <- (firstn_skipn 1000 tr) at 1.
  apply shuffle_steps_permutation.
  - rewrite <- length_app, firstn_skipn. apply Nat.le_refl.
  - intros Hnil. destruct tr as [|x l]; [reflexivity | discriminate].
Qed.

(** The transformed samples of a split, in source order, and those the
    parallel map hands over: the same samples. *)
Lemma arrival_samples (arrival : nat -> nat) (src : list RawSample)
    (ys : list Sample) :
  map_result normalize_sample (arrival_order arrival src) = Ok ys ->
  exists samples,
    map_result normalize_sample src = Ok samples /\ Permutation samples ys.
Proof.
  intros H.
  destruct (map_result_permutation normalize_sample _ src ys
              (Permutation_sym (arrival_order_permutation arrival src)) H)
    as (samples & Hs & Hperm).
  exists samples. split; [exact Hs | now apply Permutation_sym].
Qed.

(** When the transform succeeds on every sample, loading succeeds. *)
Lemma load_datasets_succeeds (src_train src_test : list RawSample)
    (draws : nat -> nat) (tr te : list Sample) :
  map_result normalize_sample src_train = Ok tr ->
  map_result normalize_sample src_test = Ok te ->
  exists ds_train ds_test,
    load_datasets src_train src_test draws = Ok (ds_train, ds_test).
Proof.
  intros Htr Hte. rewrite load_datasets_unfold.
  destruct (map_result_permutation normalize_sample src_train _ tr
              (arrival_order_permutation (substream 0 draws) src_train) Htr)
    as (tr' & -> & _).
  destruct (map_result_permutation normalize_sample src_test _ te
              (arrival_order_permutation (substream 1 draws) src_test) Hte)
    as (te' & -> & _).
  cbv zeta. eexists. eexists. reflexivity.
Qed.

(** C7 (amended).  Whenever loading succeeds, the train dataset was built
    by, in order: the per-sample transform, caching, a shuffle with buffer
    size 1000, batching by 128 and a prefetch with the auto-tuned buffer
    size; the test dataset by the transform, batching by 128, caching and
    the same prefetch, with no shuffle.  The samples of either dataset,
    batch after batch, are the transformed samples of its split, each one
    once, in an order that need not be the source order. *)
Theorem load_datasets_pipelines (src_train src_test : list RawSample)
    (draws : nat -> nat) (ds_train ds_test : Dataset (list Sample)) :
  load_datasets src_train src_test draws = Ok (ds_train, ds_test) ->
  lineage ds_train
    = [OpMap AUTOTUNE; OpCache; OpShuffle 1000; OpBatch 128;
       OpPrefetch AUTOTUNE] /\
  lineage ds_test = spec_test_pipeline AUTOTUNE /\
  ~ In (OpShuffle 1000) (lineage ds_test) /\
  (exists samples,
     Forall2 (fun raw s => normalize_sample raw = Ok s) src_test samples /\
     Permutation samples (concat (elements ds_test))) /\
  (exists samples,
     Forall2 (fun raw s => normalize_sample raw = Ok s) src_train samples /\
     Permutation samples (concat (elements ds_train))).
Proof.
  intros Hload.
  destruct (load_datasets_inv _ _ _ _ _ Hload)
    as (tr & te & sh & Htr & Hte & Hperm & Hetr & Hete & Hltr & Hlte).
  split; [exact Hltr |].
  split; [exact Hlte |].
  split.
  { rewrite Hlte. cbn [In].
    intros [H | [H | [H | [H | []]]]]; discriminate. }
  split.
  - destruct (arrival_samples _ _ _ Hte) as (samples & Hs & Hp).
    exists samples. split; [now apply map_result_Forall2 |].
    rewrite Hete, (groups_concat 128) by (lia || apply Nat.le_refl).
    exact Hp.
  - destruct (arrival_samples _ _ _ Htr) as (samples & Hs & Hp).
    exists samples. split; [now apply map_result_Forall2 |].
    rewrite Hetr, (groups_concat 128) by (lia || apply Nat.le_refl).
    now apply (Permutation_trans Hp).
Qed.

Lemma black_samples_transformed (labels : list Z) :
  map_result normalize_sample (map black_sample labels)
  = Ok (map (fun l => (mkTensor [28; 28; 1; 1]%nat (repeat 0 784),
                       tf_one_hot l NUM_CLASSES)) labels).
Proof.
  induction labels as [|l labels IH].
  - reflexivity.
  - cbn [map map_result]. unfold normalize_sample at 1, black_sample at 1.
    cbn [fst snd]. unfold black_mnist_image.
    rewrite normalize_img_constant. cbn [bind]. rewrite IH. reflexivity.
Qed.

Lemma black_samples_normalize (labels : list Z) :
  exists samples,
    map_result normalize_sample (map black_sample labels) = Ok samples.
Proof. eexists. apply black_samples_transformed. Qed.

Lemma load_datasets_pipelines_witness :
  exists ds_train ds_test,
    load_datasets (map black_sample [0; 1]%Z) (map black_sample [7]%Z)
                  (fun _ => 0%nat)
    = Ok (ds_train, ds_test) /\
    lineage ds_train
      = [OpMap AUTOTUNE; OpCache; OpShuffle 1000; OpBatch 128;
         OpPrefetch AUTOTUNE] /\
    lineage ds_test = spec_test_pipeline AUTOTUNE.
Proof.
  destruct (load_datasets_succeeds _ _ (fun _ => 0%nat) _ _
              (black_samples_transformed [0; 1]%Z)
              (black_samples_transformed [7]%Z))
    as (ds_train & ds_test & Hload).
  exists ds_train, ds_test.
  destruct (load_datasets_pipelines _ _ _ _ _ Hload) as (Ha & Hb & _).
  repeat split; assumption.
Defined.

(** C7 as the specification states it fails twice.  The train pipeline
    ends with [prefetch(tf.data.AUTOTUNE)], a buffer size tuned at run
    time, not with a prefetch of one batch.  And the test samples need not
    come out in source order: with two samples in flight in the parallel
    map, the second may be handed over first. *)
Lemma pipelines_are_not_as_specified :
  ~ train_prefetch_as_specified /\ ~ test_order_as_specified.
Proof.
  split; intros Hspec.
  - destruct (load_datasets_succeeds _ _ (fun _ => 0%nat) _ _
                (black_samples_transformed [0; 1]%Z)
                (black_samples_transformed [7]%Z))
      as (ds_train & ds_test & Hload).
    pose proof (Hspec _ _ _ _ _ Hload) as Hs.
    destruct (load_datasets_inv _ _ _ _ _ Hload)
      as (tr & te & sh & _ & _ & _ & _ & _ & Hltr & _).
    rewrite Hltr in Hs. unfold spec_train_pipeline, AUTOTUNE in Hs.
    discriminate Hs.
  - destruct (load_datasets_succeeds [] (map black_sample [0; 1]%Z)
                (fun _ => 1%nat) _ _ eq_refl
                (black_samples_transformed [0; 1]%Z))
      as (ds_train & ds_test & Hload).
    pose proof (Hspec _ _ _ _ _ Hload) as Horder.
    destruct (load_datasets_inv _ _ _ _ _ Hload)
      as (tr & te & sh & _ & Hte & _ & _ & Hete & _).
    rewrite Hete, (groups_concat 128) in Horder
      by (lia || apply Nat.le_refl).
    cbn [map] in Hte.
    rewrite (arrival_order_swap (substream 1 (fun _ => 1%nat)) _ _ eq_refl)
      in Hte.
    change [black_sample 1; black_sample 0]
      with (map black_sample [1; 0]%Z) in Hte.
    rewrite (black_samples_transformed [1; 0]%Z) in Hte.
    injection Hte as <-. cbn [map] in Horder.
    inversion Horder as [| raw s l l' Hfirst _]; subst.
    unfold normalize_sample, black_sample in Hfirst. cbn [fst snd] in Hfirst.
    unfold black_mnist_image in Hfirst.
    rewrite normalize_img_constant in Hfirst.
    injection Hfirst as Henc. lra.
Qed.

(** ** C8: the architecture and the training configuration *)

(** The shapes through the network for a 28 x 28 x 1 input: each
    unpadded 5 x 5 convolution loses 4 per spatial axis, each pooling
    halves, and the last layer has one output per class. *)
Lemma build_model_shapes :
  model_output_shapes (layers build_model) INPUT_SHAPE
  = Some [ [24; 24; 32]; [12; 12; 32]; [12; 12; 32];
           [8; 8; 64]; [4; 4; 64]; [4; 4; 64];
           [1024]; [1024]; [1024]; [10] ]%nat.
Proof. vm_compute. reflexivity. Qed.

(** C8.  The model that [build_model] returns has exactly ten layers,
    which Keras resolves to the ten stages of the specification, in order:
    Conv(32, 5x5, ReLU, no padding, He-normal), MaxPool 2x2, Dropout 0.15,
    Conv(64, 5x5, ReLU, no padding, He-normal), MaxPool 2x2, Dropout 0.15,
    Flatten, Dense(1024, ReLU, He-normal), Dropout 0.15, Dense(10,
    softmax); the first layer declares the input shape 28 x 28 x 1; and
    the model is compiled with the categorical cross-entropy loss, Adam
    with learning rate 0.001 and accuracy as the only metric. *)
Theorem build_model_architecture :
  length (layers build_model) = 10%nat /\
  map describe_layer (layers build_model) = map Some spec_stages /\
  (exists f k a p i rest,
      layers build_model = Conv2D f k a p i (Some [28; 28; 1]%nat) :: rest) /\
  describe_training build_model = Some spec_training.
Proof.
  split; [reflexivity |].
  split; [reflexivity |].
  split; [| reflexivity].
  do 6 eexists. reflexivity.
Qed.

(** ** C4: the fit loop and early stopping *)

Section TrainingProperties.

Variable Weights : Type.
Variable run_epoch : nat -> Weights -> Weights * Logs.
Variable restore_on_train_end : bool.
Variable w0 : Weights.

Local Abbreviation W := (weights_after run_epoch w0).
Local Abbreviation L := (val_loss_of run_epoch w0).
Local Abbreviation cfg := (EarlyStopping 5 true).
Local Abbreviation loop := (fit_loop run_epoch restore_on_train_end cfg).

Lemma is_improvement_true (current b : Q) :
  (current < b)%Q -> is_improvement cfg current (Some b) = true.
Proof.
  intros H. unfold is_improvement. cbn [min_delta EarlyStopping].
  destruct (Qlt_le_dec (current - 0) b) as [_ | Hge]; [reflexivity |].
  exfalso. lra.
Qed.

Lemma is_improvement_false (current b : Q) :
  (b <= current)%Q -> is_improvement cfg current (Some b) = false.
Proof.
  intros H. unfold is_improvement. cbn [min_delta EarlyStopping].
  destruct (Qlt_le_dec (current - 0) b) as [Hlt | _]; [| reflexivity].
  exfalso. lra.
Qed.

Lemma run_epoch_next (e : nat) :
  run_epoch (S e) (W e) = (W (S e), logs_of run_epoch w0 (S e)).
Proof. cbn [weights_after logs_of]. apply surjective_pairing. Qed.

Lemma run_epoch_first :
  run_epoch 0 w0 = (W 0%nat, logs_of run_epoch w0 0).
Proof. cbn [weights_after logs_of]. apply surjective_pairing. Qed.

Lemma history_step (e : nat) :
  map (logs_of run_epoch w0) (seq 0 e) ++ [logs_of run_epoch w0 e]
  = map (logs_of run_epoch w0) (seq 0 (S e)).
Proof. now rewrite seq_S, map_app. Qed.

(** The first epoch always improves on [np.inf]. *)
Lemma first_epoch_running (n : nat) :
  loop (S n) 0%nat (mkFit w0 false on_train_begin [])
  = loop n 1%nat
      (mkFit (W 0%nat) false
         (mkCallback 0 0 (Some (L 0%nat)) (Some (W 0%nat)) 0)
         [logs_of run_epoch w0 0]).
Proof.
  cbn [fit_loop weights]. rewrite run_epoch_first.
  unfold on_epoch_end. reflexivity.
Qed.

Lemma first_epoch_invariant :
  running run_epoch w0 1
    (mkFit (W 0%nat) false
       (mkCallback 0 0 (Some (L 0%nat)) (Some (W 0%nat)) 0)
       [logs_of run_epoch w0 0]).
Proof.
  exists 0%nat. cbn [weights stop_training history callback Nat.sub].
  repeat split; try reflexivity; try lia.
  intros e He. replace e with 0%nat by lia. apply Qle_refl.
Qed.

(** One more epoch keeps the loop running, with the best epoch updated,
    or stops it. *)
Lemma epoch_step (e : nat) (st : FitState Weights) :
  (1 <= e)%nat -> running run_epoch w0 e st ->
  let st' :=
    on_epoch_end restore_on_train_end cfg e (logs_of run_epoch w0 e)
      (mkFit (W e) (stop_training st) (callback st)
             (history st ++ [logs_of run_epoch w0 e])) in
  (stop_training st' = false /\ running run_epoch w0 (S e) st') \/
  (stop_training st' = true /\ stopped run_epoch restore_on_train_end w0 st'
   /\ length (history st') = S e).
Proof.
  intros He (b & Hw & Hs & Hh & Hc & (Hb & Hlt & Hle) & Hwait).
  cbv zeta. unfold on_epoch_end.
  cbn [monitor EarlyStopping logs_get String.eqb Ascii.eqb Bool.eqb
       restore_best_weights patience callback weights stop_training history].
  fold (L e). rewrite Hc, Hs, Hh, history_step.
  cbn [best_weights best wait stopped_epoch best_epoch].
  destruct (Qlt_le_dec (L e) (L b)) as [Himp | Hno].
  - rewrite (is_improvement_true _ _ Himp).
    left. split; [reflexivity |].
    exists e. cbn [weights stop_training history callback].
    replace (S e - 1)%nat with e by lia.
    replace (e - e)%nat with 0%nat by lia.
    repeat split; try reflexivity; try lia.
    + intros e' He'. apply Qlt_le_trans with (L b); [exact Himp |].
      apply Hle. lia.
    + intros e' He'. destruct (Nat.eq_dec e' e) as [-> | Hne].
      * apply Qle_refl.
      * apply Qle_trans with (L b); [apply Qlt_le_weak, Himp |].
        apply Hle. lia.
  - rewrite (is_improvement_false _ _ Hno).
    assert (Hpos : (0 <? e)%nat = true) by (apply Nat.ltb_lt; lia).
    rewrite Hpos, andb_true_r.
    destruct (Nat.leb_spec 5 (S (e - 1 - b))) as [Hstop | Hgo].
    + right. split; [reflexivity |].
      assert (Heb : e = (b + 5)%nat) by lia.
      split.
      * exists b. cbn [weights stop_training history callback andb negb].
        replace (S e) with (b + 6)%nat by lia.
        replace (S (e - 1 - b)) with 5%nat by lia.
        rewrite <- Heb.
        repeat split; try reflexivity; try lia.
        -- exact Hlt.
        -- intros e' He'. destruct (Nat.eq_dec e' e) as [-> | Hne].
           ++ exact Hno.
           ++ apply Hle. lia.
        -- now destruct restore_on_train_end.
      * cbn [history]. now rewrite length_map, length_seq.
    + left. split; [reflexivity |].
      exists b. cbn [weights stop_training history callback].
      replace (S e - 1)%nat with e by lia.
      replace (e - b)%nat with (S (e - 1 - b)) by lia.
      repeat split; try reflexivity; try lia.
      * exact Hlt.
      * intros e' He'. destruct (Nat.eq_dec e' e) as [-> | Hne].
        -- exact Hno.
        -- apply Hle. lia.
Qed.

(** The loop from a running state: after [n] more epochs at most it is
    still running, having done them all, or it has been stopped. *)
Lemma fit_loop_invariant (n : nat) :
  forall (e : nat) (st : FitState Weights),
    (1 <= e)%nat -> running run_epoch w0 e st ->
    (stop_training (loop n e st) = false /\
     running run_epoch w0 (e + n) (loop n e st)) \/
    (stop_training (loop n e st) = true /\
     stopped run_epoch restore_on_train_end w0 (loop n e st) /\
     (length (history (loop n e st)) <= e + n)%nat).
Proof.
  induction n as [|n IH]; intros e st He Hrun.
  - cbn [fit_loop]. left. rewrite Nat.add_0_r. split; [| exact Hrun].
    destruct Hrun as (b & _ & Hs & _). exact Hs.
  - destruct e as [|e']; [lia |].
    assert (Hw : weights st = W e').
    { destruct Hrun as (b & Hw & _). rewrite Hw. f_equal. lia. }
    pose proof (epoch_step (S e') st He Hrun) as Hstep. cbv zeta in Hstep.
    cbn [fit_loop]. rewrite Hw, run_epoch_next.
    destruct Hstep as [[Hs Hrun'] | (Hs & Hstop & Hlen)]; rewrite Hs.
    + replace (S e' + S n)%nat with (S (S e') + n)%nat by lia.
      apply IH; [lia | exact Hrun'].
    + right. repeat split; try assumption. lia.
Qed.

(** How [train] ends: after all 50 epochs, never stopped, or stopped by the
    callback six epochs at least into the training. *)
Lemma train_outcome :
  (stop_training (train run_epoch restore_on_train_end w0) = false /\
   history (train run_epoch restore_on_train_end w0)
     = map (logs_of run_epoch w0) (seq 0 50) /\
   exists b, best_epoch_of run_epoch w0 b 50 /\ (49 - b < 5)%nat) \/
  (stop_training (train run_epoch restore_on_train_end w0) = true /\
   exists b,
     (b + 6 <= 50)%nat /\
     history (train run_epoch restore_on_train_end w0)
       = map (logs_of run_epoch w0) (seq 0 (b + 6)) /\
     best_epoch_of run_epoch w0 b (b + 6) /\
     stopped_epoch (callback (train run_epoch restore_on_train_end w0))
       = (b + 5)%nat /\
     best_epoch (callback (train run_epoch restore_on_train_end w0)) = b /\
     weights (train run_epoch restore_on_train_end w0) = W b).
Proof.
  unfold train, fit, MAX_EPOCHS. rewrite first_epoch_running.
  pose proof (fit_loop_invariant 49 1 _ (le_n 1) first_epoch_invariant)
    as Hloop.
  remember (loop 49 1%nat
              (mkFit (W 0%nat) false
                 (mkCallback 0 0 (Some (L 0%nat)) (Some (W 0%nat)) 0)
                 [logs_of run_epoch w0 0])) as st eqn:Est.
  clear Est.
  destruct Hloop
    as [[Hs (b & Hw & _ & Hh & Hc & Hbest & Hwait)]
       | (Hs & (b & _ & Hh & Hbest & Hc & Hw) & Hlen)].
  - left. unfold on_train_end. rewrite Hc.
    cbn [best_weights restore_best_weights EarlyStopping andb].
    assert (H50 : (1 + 49 = 50)%nat) by reflexivity.
    rewrite H50 in Hh, Hbest.
    assert (Hwait' : (49 - b < 5)%nat) by lia.
    destruct restore_on_train_end; cbn [stop_training history].
    + split; [exact Hs |]. split; [exact Hh |].
      exists b. split; assumption.
    + split; [exact Hs |]. split; [exact Hh |].
      exists b. split; assumption.
  - right. unfold on_train_end. rewrite Hc.
    cbn [best_weights restore_best_weights EarlyStopping andb].
    rewrite Hh, length_map, length_seq in Hlen.
    assert (Hb6 : (b + 6 <= 50)%nat) by lia.
    destruct restore_on_train_end;
      cbn [stop_training history callback weights].
    + split; [exact Hs |]. exists b.
      cbn [stopped_epoch best_epoch].
      split; [exact Hb6 |]. split; [exact Hh |]. split; [exact Hbest |].
      split; [reflexivity |]. split; reflexivity.
    + split; [exact Hs |]. exists b. rewrite Hc.
      cbn [stopped_epoch best_epoch].
      split; [exact Hb6 |]. split; [exact Hh |]. split; [exact Hbest |].
      split; [reflexivity |]. split; [reflexivity | exact Hw].
Qed.

(** With a loss that improves for [K] epochs and then never again, the
    best epoch among enough epochs is the last improving one. *)
Lemma best_epoch_after_plateau (K b n : nat) :
  improves_then_plateaus run_epoch w0 K ->
  best_epoch_of run_epoch w0 b n ->
  (K <= n \/ S b < n)%nat ->
  b = (K - 1)%nat.
Proof.
  intros (HK & Himp & Hflat) (Hb & Hlt & Hle) Hn.
  destruct (Nat.lt_trichotomy b (K - 1)) as [Hlow | [Heq | Hhigh]];
    [| exact Heq |]; exfalso.
  - assert (H1 : (L (S b) < L b)%Q) by (apply Himp; lia).
    assert (H2 : (L b <= L (S b))%Q) by (apply Hle; lia).
    lra.
  - assert (H1 : (L b < L (K - 1)%nat)%Q) by (apply Hlt; lia).
    assert (H2 : (L (K - 1)%nat <= L b)%Q) by (apply Hflat; lia).
    lra.
Qed.

Lemma best_epoch_unique (b b' n : nat) :
  best_epoch_of run_epoch w0 b n -> best_epoch_of run_epoch w0 b' n ->
  b = b'.
Proof.
  intros (Hb & Hlt & Hle) (Hb' & Hlt' & Hle').
  destruct (Nat.lt_trichotomy b b') as [Hlow | [Heq | Hhigh]];
    [| exact Heq |]; exfalso.
  - assert (H1 : (L b' < L b)%Q) by (apply Hlt'; exact Hlow).
    assert (H2 : (L b <= L b')%Q) by (apply Hle; exact Hb').
    lra.
  - assert (H1 : (L b < L b')%Q) by (apply Hlt; exact Hhigh).
    assert (H2 : (L b' <= L b)%Q) by (apply Hle'; exact Hb).
    lra.
Qed.

(** While the loop runs, the last six epochs are not a best epoch
    followed by five epochs without improvement. *)
Lemma running_excludes_plateau (e b : nat) (st : FitState Weights) :
  running run_epoch w0 e st -> (b + 6 = e)%nat ->
  ~ best_epoch_of run_epoch w0 b (b + 6).
Proof.
  intros (b' & _ & _ & _ & _ & Hbest & Hwait) He Hplateau.
  rewrite He in Hplateau.
  pose proof (best_epoch_unique b b' e Hplateau Hbest) as Hb.
  lia.
Qed.

(** The loop does not run past five epochs without improvement: as long
    as it has not stopped, and up to the epoch before it stops, no epoch
    has been followed by five epochs none of which improved on it. *)
Lemma fit_loop_plateau (n : nat) :
  forall (e : nat) (st : FitState Weights),
    (1 <= e)%nat -> running run_epoch w0 e st ->
    (forall b, (b + 6 <= e)%nat -> ~ best_epoch_of run_epoch w0 b (b + 6)) ->
    (stop_training (loop n e st) = false ->
     forall b, (b + 6 <= e + n)%nat ->
               ~ best_epoch_of run_epoch w0 b (b + 6)) /\
    (stop_training (loop n e st) = true ->
     forall b, (b + 6 <= length (history (loop n e st)) - 1)%nat ->
               ~ best_epoch_of run_epoch w0 b (b + 6)).
Proof.
  induction n as [|n IH]; intros e st He Hrun Hnp.
  - cbn [fit_loop]. split.
    + intros _ b Hb. apply Hnp. lia.
    + destruct Hrun as (b' & _ & Hs & _). rewrite Hs. discriminate.
  - destruct e as [|e']; [lia |].
    assert (Hw : weights st = W e').
    { destruct Hrun as (b & Hw & _). rewrite Hw. f_equal. lia. }
    pose proof (epoch_step (S e') st He Hrun) as Hstep. cbv zeta in Hstep.
    cbn [fit_loop]. rewrite Hw, run_epoch_next.
    destruct Hstep as [[Hs Hrun'] | (Hs & Hstop & Hlen)]; rewrite Hs.
    + replace (S e' + S n)%nat with (S (S e') + n)%nat by lia.
      apply IH; [lia | exact Hrun' |].
      intros b Hb.
      destruct (Nat.eq_dec (b + 6) (S (S e'))) as [Heq | Hne].
      * exact (running_excludes_plateau _ b _ Hrun' Heq).
      * apply Hnp. lia.
    + cbv iota. split.
      * intros Hfalse. rewrite Hs in Hfalse. discriminate Hfalse.
      * intros _ b Hb. apply Hnp. rewrite Hlen in Hb. lia.
Qed.

Lemma on_train_end_keeps (st : FitState Weights) :
  stop_training (on_train_end restore_on_train_end cfg st)
  = stop_training st /\
  history (on_train_end restore_on_train_end cfg st) = history st.
Proof.
  unfold on_train_end.
  destruct (best_weights (callback st)); [| split; reflexivity].
  destruct (restore_best_weights cfg && restore_on_train_end);
    split; reflexivity.
Qed.

(** Five epochs without improvement within the 50 stop the training, at
    the latest when they are over. *)
Lemma train_stops_at_plateau (b : nat) :
  (b + 6 <= 50)%nat -> best_epoch_of run_epoch w0 b (b + 6) ->
  stop_training (train run_epoch restore_on_train_end w0) = true /\
  (length (history (train run_epoch restore_on_train_end w0)) <= b + 6)%nat.
Proof.
  intros Hb Hplateau. unfold train, fit, MAX_EPOCHS.
  rewrite first_epoch_running.
  assert (Hnp1 : forall b0, (b0 + 6 <= 1)%nat ->
                            ~ best_epoch_of run_epoch w0 b0 (b0 + 6))
    by (intros b0 Hb0; lia).
  pose proof (fit_loop_plateau 49 1 _ (le_n 1) first_epoch_invariant Hnp1)
    as [Hrunning Hstopped].
  remember (loop 49 1%nat
              (mkFit (W 0%nat) false
                 (mkCallback 0 0 (Some (L 0%nat)) (Some (W 0%nat)) 0)
                 [logs_of run_epoch w0 0])) as st eqn:Est.
  clear Est.
  destruct (on_train_end_keeps st) as [-> ->].
  destruct (stop_training st).
  - split; [reflexivity |].
    destruct (Nat.le_gt_cases (length (history st)) (b + 6)) as [Hle | Hgt];
      [exact Hle | exfalso].
    apply (Hstopped eq_refl b); [lia | exact Hplateau].
  - exfalso. apply (Hrunning eq_refl b); [lia | exact Hplateau].
Qed.

(** C4.  Training runs at most 50 epochs.  When the callback stops it,
    it does so five epochs after the best epoch, the first one whose
    validation loss no other epoch run improves on, and the final
    parameters are those of that best epoch.  Whenever the validation
    loss fails to improve for five epochs in a row within the 50, after a
    best epoch, training stops, at the latest with the fifth of them.  In
    particular, when the validation loss improves for [K] epochs and then
    never again, and [K + 5 <= 50], training stops at epoch [K + 5] (index
    [K + 4]) with the parameters captured at the end of epoch [K]; when
    the 50 epochs end before the fifth epoch of the plateau, training
    runs all 50 epochs and is not stopped. *)
Theorem early_stopping_restores_best :
  (length (history (train run_epoch restore_on_train_end w0))
     <= MAX_EPOCHS)%nat /\
  (stop_training (train run_epoch restore_on_train_end w0) = true ->
   exists b,
     length (history (train run_epoch restore_on_train_end w0))
       = (b + 6)%nat /\
     best_epoch_of run_epoch w0 b (b + 6) /\
     best_epoch (callback (train run_epoch restore_on_train_end w0)) = b /\
     weights (train run_epoch restore_on_train_end w0) = W b) /\
  (forall b,
      (b + 6 <= MAX_EPOCHS)%nat -> best_epoch_of run_epoch w0 b (b + 6) ->
      stop_training (train run_epoch restore_on_train_end w0) = true /\
      (length (history (train run_epoch restore_on_train_end w0))
         <= b + 6)%nat) /\
  (forall K,
      improves_then_plateaus run_epoch w0 K ->
      (K + 5 <= MAX_EPOCHS)%nat ->
      stop_training (train run_epoch restore_on_train_end w0) = true /\
      length (history (train run_epoch restore_on_train_end w0))
        = (K + 5)%nat /\
      stopped_epoch (callback (train run_epoch restore_on_train_end w0))
        = (K + 4)%nat /\
      best_epoch (callback (train run_epoch restore_on_train_end w0))
        = (K - 1)%nat /\
      weights (train run_epoch restore_on_train_end w0) = W (K - 1)%nat) /\
  (forall K,
      improves_then_plateaus run_epoch w0 K ->
      (MAX_EPOCHS < K + 5)%nat ->
      stop_training (train run_epoch restore_on_train_end w0) = false /\
      length (history (train run_epoch restore_on_train_end w0))
        = MAX_EPOCHS).
Proof.
  unfold MAX_EPOCHS. pose proof train_outcome as Hout.
  pose proof train_stops_at_plateau as Hplateau.
  remember (train run_epoch restore_on_train_end w0) as final eqn:Efinal.
  clear Efinal.
  split; [| split; [| split; [exact Hplateau |]]].
  - destruct Hout as [(_ & Hh & _) | (_ & b & Hlen & Hh & _)];
      rewrite Hh, length_map, length_seq; [apply Nat.le_refl | exact Hlen].
  - destruct Hout
      as [(Hs & _) | (_ & b & Hlen & Hh & Hbest & Hse & Hbe & Hw)].
    + rewrite Hs. discriminate.
    + intros _. exists b.
      split; [rewrite Hh, length_map; apply length_seq |].
      split; [exact Hbest |]. split; [exact Hbe | exact Hw].
  - destruct Hout
      as [(Hs & Hh & b & Hbest & Hwait)
         | (Hs & b & Hlen & Hh & Hbest & Hse & Hbe & Hw)].
    + assert (Hl : length (history final) = 50%nat)
        by (rewrite Hh, length_map; apply length_seq).
      split.
      * intros K Hplat HK. exfalso.
        assert (Hb : b = (K - 1)%nat)
          by (apply (best_epoch_after_plateau K b 50 Hplat Hbest); lia).
        destruct Hplat as (H1 & _). lia.
      * intros K _ _. split; [exact Hs | exact Hl].
    + assert (Hl : length (history final) = (b + 6)%nat)
        by (rewrite Hh, length_map; apply length_seq).
      split.
      * intros K Hplat HK.
        assert (Hb : b = (K - 1)%nat)
          by (apply (best_epoch_after_plateau K b (b + 6) Hplat Hbest); lia).
        destruct Hplat as (H1 & _).
        split; [exact Hs |].
        split; [rewrite Hl; lia |].
        split; [rewrite Hse; lia |].
        split; [rewrite Hbe; exact Hb |].
        rewrite Hw, Hb. reflexivity.
      * intros K Hplat HK. exfalso.
        assert (Hb : b = (K - 1)%nat)
          by (apply (best_epoch_after_plateau K b (b + 6) Hplat Hbest); lia).
        destruct Hplat as (H1 & _). lia.
Qed.

End TrainingProperties.

(** Training never runs more than the 50 epochs asked for. *)
Lemma train_history_bound (Weights : Type)
    (run_epoch : nat -> Weights -> Weights * Logs)
    (restore_on_train_end : bool) (w0 : Weights) :
  (length (history (train run_epoch restore_on_train_end w0)) <= 50)%nat.
Proof.
  pose proof (train_outcome Weights run_epoch restore_on_train_end w0) as Hout.
  remember (train run_epoch restore_on_train_end w0) as final eqn:Efinal.
  clear Efinal.
  destruct Hout as [(_ & Hh & _) | (_ & b & Hlen & Hh & _)];
    rewrite Hh, length_map, length_seq; [apply Nat.le_refl | exact Hlen].
Qed.

Lemma synthetic_val_loss (floor_epoch e : nat) :
  val_loss_of (synthetic_epoch floor_epoch) 0%nat e
  = inject_Z (100 - Z.of_nat (Nat.min e floor_epoch)).
Proof. destruct e; reflexivity. Qed.

Lemma synthetic_weights (floor_epoch e : nat) :
  weights_after (synthetic_epoch floor_epoch) 0%nat e = S e.
Proof.
  induction e as [|e IH]; [reflexivity |].
  cbn [weights_after]. rewrite IH. reflexivity.
Qed.

(** The synthetic loss improves for [floor_epoch + 1] epochs and then
    stays where it is. *)
Lemma synthetic_improves_then_plateaus (floor_epoch : nat) :
  improves_then_plateaus (synthetic_epoch floor_epoch) 0%nat (S floor_epoch).
Proof.
  split; [lia |]. split.
  - intros e He. rewrite !synthetic_val_loss. rewrite <- Zlt_Qlt. lia.
  - intros e He. rewrite !synthetic_val_loss. rewrite <- Zle_Qle. lia.
Qed.

Lemma early_stopping_restores_best_witness :
  improves_then_plateaus (synthetic_epoch 2) 0%nat 3 /\
  (3 + 5 <= MAX_EPOCHS)%nat /\
  stop_training (train (synthetic_epoch 2) false 0%nat) = true /\
  length (history (train (synthetic_epoch 2) false 0%nat)) = 8%nat /\
  weights (train (synthetic_epoch 2) false 0%nat) = 3%nat.
Proof.
  pose proof (synthetic_improves_then_plateaus 2) as Himp.
  assert (Hmax : (3 + 5 <= MAX_EPOCHS)%nat) by (unfold MAX_EPOCHS; lia).
  split; [exact Himp |]. split; [exact Hmax |].
  destruct (early_stopping_restores_best nat (synthetic_epoch 2) false 0%nat)
    as (_ & _ & _ & HK & _).
  destruct (HK 3%nat Himp Hmax) as (Hs & Hl & _ & _ & Hw).
  split; [exact Hs |]. split; [exact Hl |].
  rewrite Hw. apply synthetic_weights.
Defined.

(** A run that improves for 46 epochs: 50 epochs, no stop. *)
Example synthetic_run_46 :
  length (history (train (synthetic_epoch 45) false 0%nat)) = 50%nat /\
  stop_training (train (synthetic_epoch 45) false 0%nat) = false.
Proof. vm_compute. split; reflexivity. Qed.

(** A run that improves for 3 epochs: stopped at the 8th, with the
    parameters of the 3rd. *)
Example synthetic_run_3 :
  length (history (train (synthetic_epoch 2) true 0%nat)) = 8%nat /\
  stop_training (train (synthetic_epoch 2) true 0%nat) = true /\
  weights (train (synthetic_epoch 2) true 0%nat) = 3%nat /\
  weights (train (synthetic_epoch 2) false 0%nat) = 3%nat.
Proof. vm_compute. repeat split; reflexivity. Qed.

(** ** C1: persistence of the trained model *)

(** [MODEL_DIR] is bound nowhere in the module. *)
Lemma model_dir_unbound : lookup "MODEL_DIR" module_globals = None.
Proof. reflexivity. Qed.

(** Running lines 141-150 with the names of the module: the first
    statement reads [MODEL_DIR] and raises; nothing is written. *)
Lemma save_section_raises (has_export : bool) (w : World) :
  save_section module_globals has_export w = (Raise (NameError "MODEL_DIR"), w).
Proof.
  unfold save_section, pbind, load_global. rewrite model_dir_unbound.
  reflexivity.
Qed.

(** Had the module bound [MODEL_DIR] to a directory name, the two saves
    would complete, in the formats their file names select, before
    [model.export] is reached. *)
Lemma save_section_with_model_dir (env : list (string * PyValue))
    (dir : string) (w : World) :
  lookup "MODEL_DIR" env = Some (PyStr dir) ->
  exists w',
    save_section env false w
      = (Raise (AttributeError "Sequential" "export"), w') /\
    files w' = ("CNN1_mnist_model.h5", HDF5)
                 :: ("CNN1_saved_model.keras", KerasArchive) :: files w /\
    stdout w' = stdout w.
Proof.
  intros Hdir. unfold save_section, pbind, load_global. rewrite Hdir.
  cbn [ret path_of os_path_exists].
  destruct (negb _); eexists; (split; [reflexivity |]); split; reflexivity.
Qed.

(** C1 (the code at its only input).  Whenever loading succeeds, [main]
    trains, shows the figure of the four curves, and then raises
    [NameError] for [MODEL_DIR] at the first statement of the persistence
    step: the world it leaves has the new figure and nothing else, no file
    written, nothing printed; neither [model.save] is reached. *)
Theorem main_raises_before_saving (Weights : Type)
    (run_epoch : nat -> Weights -> Weights * Logs)
    (restore_on_train_end has_export : bool)
    (src_train src_test : list RawSample) (draws : nat -> nat)
    (w0 : Weights) (w : World)
    (ds : Dataset (list Sample) * Dataset (list Sample)) :
  load_datasets src_train src_test draws = Ok ds ->
  exists fig,
    main Weights run_epoch restore_on_train_end has_export
         src_train src_test draws w0 w
    = (Raise (NameError "MODEL_DIR"),
       mkWorld (files w) (directories w) (fig :: figures w) (stdout w)) /\
    ~ saves_complete
        (main Weights run_epoch restore_on_train_end has_export
              src_train src_test draws w0 empty_world).
Proof.
  intros Hload.
  assert (Hmain : forall v,
             main Weights run_epoch restore_on_train_end has_export
                  src_train src_test draws w0 v
             = save_section module_globals has_export
                 (snd (plot_metrics
                         (history (train run_epoch restore_on_train_end w0))
                         v))).
  { intros v. unfold main, pbind, lift. rewrite Hload. reflexivity. }
  eexists. split.
  - rewrite Hmain, save_section_raises. reflexivity.
  - rewrite Hmain, save_section_raises.
    unfold saves_complete. cbn [snd plot_metrics plt_show files empty_world].
    intros [[] _].
Qed.

Lemma main_raises_before_saving_witness :
  exists ds fig,
    load_datasets (map black_sample [0; 1]%Z) (map black_sample [7]%Z)
                  (fun _ => 0%nat) = Ok ds /\
    main nat (synthetic_epoch 2) false false
         (map black_sample [0; 1]%Z) (map black_sample [7]%Z)
         (fun _ => 0%nat) 0%nat empty_world
    = (Raise (NameError "MODEL_DIR"), mkWorld [] [] [fig] []).
Proof.
  destruct (black_samples_normalize [0; 1]%Z) as [tr Htr].
  destruct (black_samples_normalize [7]%Z) as [te Hte].
  destruct (load_datasets_succeeds _ _ (fun _ => 0%nat) _ _ Htr Hte)
    as (ds_train & ds_test & Hload).
  destruct (main_raises_before_saving nat (synthetic_epoch 2) false false
              _ _ _ 0%nat empty_world _ Hload) as (fig & Hmain & _).
  exists (ds_train, ds_test), fig. split; [exact Hload | exact Hmain].
Defined.

(** * Further properties of the script *)

(** ** The per-sample transform on any input *)

Lemma numel_app_one (s : list nat) : numel (s ++ [1%nat]) = numel s.
Proof.
  induction s as [|d s IH]; [reflexivity |].
  cbn [app numel fold_right]. fold (numel (s ++ [1%nat])). fold (numel s).
  now rewrite IH.
Qed.

Lemma broadcast_length (op : R -> R -> R) (x y : Tensor R) :
  length (data (broadcast op x y)) = length (data x).
Proof.
  unfold broadcast. cbn [data].
  rewrite length_map, length_combine, length_seq. apply Nat.min_id.
Qed.

(** The transform as one case distinction on the rank of the image. *)
Lemma normalize_img_cases (image : Tensor Z) (label : Z) :
  ((3 <= rank image)%nat /\
   exists out,
     normalize_img image label = Ok (out, tf_one_hot label NUM_CLASSES) /\
     shape out = shape image ++ [1%nat] /\
     length (data out) = length (data image)) \/
  ((rank image < 3)%nat /\
   normalize_img image label
   = Raise (InvalidArgumentError "Invalid reduction dimension")).
Proof.
  destruct (Nat.le_gt_cases 3 (rank image)) as [Hle | Hlt].
  - left. split; [exact Hle |].
    unfold normalize_img, tf_nn_moments.
    set (x := div_scalar (tf_cast image) 255).
    unfold reduce_mean_leading at 1.
    assert (Hrk : rank x = rank image) by reflexivity.
    rewrite Hrk.
    replace (3 <=? rank image)%nat with true
      by (symmetry; apply Nat.leb_le; exact Hle).
    cbn [bind]. unfold reduce_mean_leading.
    match goal with
    | |- context [(3 <=? rank ?t)%nat] =>
        replace (3 <=? rank t)%nat with true
          by (symmetry; apply Nat.leb_le; exact Hle)
    end.
    cbn [bind]. rewrite expand_dims_last. cbn [bind].
    eexists. split; [reflexivity |]. cbn [shape data].
    split; [reflexivity |].
    rewrite !broadcast_length. subst x.
    unfold div_scalar, tf_cast, tensor_map. cbn [data].
    now rewrite !length_map.
  - right. split; [exact Hlt |].
    unfold normalize_img, tf_nn_moments.
    rewrite reduce_mean_low_rank; [reflexivity | exact Hlt].
Qed.

(** The transform accepts exactly the images of rank 3 or more: below,
    [tf.nn.moments] has no axis 2 to reduce and the call raises; from rank
    3 on it returns, whatever the pixel values and the label. *)
Theorem normalize_img_succeeds_iff_rank (image : Tensor Z) (label : Z) :
  ((exists out enc, normalize_img image label = Ok (out, enc))
   <-> (3 <= rank image)%nat) /\
  (normalize_img image label
   = Raise (InvalidArgumentError "Invalid reduction dimension")
   <-> (rank image < 3)%nat).
Proof.
  destruct (normalize_img_cases image label)
    as [(Hle & out & Hn & _) | (Hlt & Hn)].
  - split; split.
    + intros _. exact Hle.
    + intros _. exists out, (tf_one_hot label NUM_CLASSES). exact Hn.
    + rewrite Hn. discriminate.
    + lia.
  - split; split.
    + intros (out & enc & H). rewrite Hn in H. discriminate.
    + lia.
    + intros _. exact Hlt.
    + intros _. exact Hn.
Qed.

(** The transform keeps tensors well formed: on a well-formed image its
    two results have as many entries as their shapes say, and the image
    keeps its number of entries. *)
Theorem normalize_img_well_formed (image : Tensor Z) (label : Z)
    (out enc : Tensor R) :
  well_formed image ->
  normalize_img image label = Ok (out, enc) ->
  well_formed out /\ well_formed enc /\
  length (data out) = length (data image).
Proof.
  intros Hwf Hn.
  destruct (normalize_img_cases image label)
    as [(_ & out' & Hn' & Hs & Hl) | (_ & Hn')];
    rewrite Hn' in Hn; [| discriminate].
  injection Hn as <- <-.
  split; [| split; [| exact Hl]].
  - unfold well_formed. rewrite Hs, numel_app_one, Hl. exact Hwf.
  - unfold well_formed, tf_one_hot. cbn [data shape numel fold_right].
    rewrite length_map, length_seq. lia.
Qed.

Lemma normalize_img_well_formed_witness :
  exists out enc,
    normalize_img black_mnist_image 5 = Ok (out, enc) /\
    well_formed out /\ well_formed enc.
Proof.
  pose proof (normalize_img_constant 28 28 1 0 5) as Hn.
  eexists. eexists. split; [exact Hn |].
  destruct (normalize_img_well_formed black_mnist_image 5 _ _
              black_mnist_image_well_formed Hn) as (H1 & H2 & _).
  split; assumption.
Defined.

(** A label outside 0..9 is not rejected: its encoding is the zero vector
    of length 10, with no entry equal to 1 and sum 0, so the one-hot
    invariant holds for labels in range only. *)
Theorem out_of_range_label_encodes_to_zero (image : Tensor Z) (label : Z)
    (out enc : Tensor R) :
  (label < 0 \/ 9 < label)%Z ->
  normalize_img image label = Ok (out, enc) ->
  length (data enc) = 10%nat /\
  Forall (fun v => v = 0) (data enc) /\
  count_ones (data enc) = 0%nat /\
  list_sum_R (data enc) = 0.
Proof.
  intros Hl Hn.
  destruct (normalize_img_inv _ _ _ _ Hn) as (_ & _ & ->).
  unfold tf_one_hot, NUM_CLASSES. cbn [data].
  fold (one_hot_entries label 0 10).
  assert (Hh : hits label 0 10 = 0%nat).
  { unfold hits.
    destruct (Z.leb_spec (Z.of_nat 0) label);
      destruct (Z.ltb_spec label (Z.of_nat (0 + 10)));
      cbn [andb]; try reflexivity; lia. }
  split; [unfold one_hot_entries; now rewrite length_map, length_seq |].
  split.
  - unfold one_hot_entries. apply Forall_map, Forall_forall.
    intros i Hi. apply in_seq in Hi.
    destruct (Z.eqb_spec (Z.of_nat i) label); [lia | reflexivity].
  - split; [now rewrite one_hot_entries_ones |].
    rewrite one_hot_entries_sum, Hh. reflexivity.
Qed.

Lemma out_of_range_label_encodes_to_zero_witness :
  exists out enc,
    normalize_img black_mnist_image 10 = Ok (out, enc) /\
    list_sum_R (data enc) = 0.
Proof.
  pose proof (normalize_img_constant 28 28 1 0 10) as Hn.
  eexists. eexists. split; [exact Hn |].
  destruct (out_of_range_label_encodes_to_zero black_mnist_image 10 _ _
              ltac:(right; lia) Hn) as (_ & _ & _ & Hs).
  exact Hs.
Defined.

(** ** What standardization keeps *)

(** Standardization keeps the order of the intensities: a pixel that is
    not brighter than another in the image is not brighter after the
    transform. *)
Theorem normalize_img_monotone (image : Tensor Z) (label : Z)
    (out enc : Tensor R) (h w k i j : nat) :
  shape image = [h; w; k] -> well_formed image ->
  normalize_img image label = Ok (out, enc) ->
  (i < length (data image))%nat -> (j < length (data image))%nat ->
  (nth i (data image) 0 <= nth j (data image) 0)%Z ->
  nth i (data out) 0 <= nth j (data out) 0.
Proof.
  intros Hs Hwf Hn Hi Hj Hle.
  rewrite (normalize_img_rank3 image label h w k Hs Hwf) in Hn.
  injection Hn as <- _. cbn [data].
  unfold standardize, pixels. rewrite map_map.
  set (f := fun p : Z =>
              (IZR p / 255
               - mean_of (map (fun p0 : Z => IZR p0 / 255) (data image)))
              / (sqrt (variance_of
                         (map (fun p0 : Z => IZR p0 / 255) (data image)))
                 + epsilon)).
  assert (Hnth : forall m, (m < length (data image))%nat ->
                           nth m (map f (data image)) 0
                           = f (nth m (data image) 0%Z)).
  { intros m Hm. rewrite <- (map_nth f (data image) 0%Z m).
    apply nth_indep. now rewrite length_map. }
  rewrite (Hnth i Hi), (Hnth j Hj). subst f. cbv beta.
  apply IZR_le in Hle.
  set (d := sqrt _ + epsilon).
  assert (Hd : 0 < d).
  { subst d. pose proof (sqrt_pos (variance_of
                (map (fun p0 : Z => IZR p0 / 255) (data image)))).
    pose proof epsilon_pos. lra. }
  unfold Rdiv. apply Rmult_le_compat_r.
  - apply Rlt_le, Rinv_0_lt_compat, Hd.
  - apply Rplus_le_compat_r. apply Rmult_le_compat_r; lra.
Qed.

Lemma normalize_img_monotone_witness :
  exists out enc,
    normalize_img (mkTensor [1; 2; 1]%nat [0; 200]%Z) 3 = Ok (out, enc) /\
    nth 0 (data out) 0 <= nth 1 (data out) 0.
Proof.
  assert (Hn := normalize_img_rank3 (mkTensor [1; 2; 1]%nat [0; 200]%Z) 3
                  1 2 1 eq_refl eq_refl).
  eexists. eexists. split; [exact Hn |].
  apply (normalize_img_monotone (mkTensor [1; 2; 1]%nat [0; 200]%Z) 3 _ _
           1 2 1 0 1 eq_refl eq_refl Hn);
    cbn [data length nth]; lia.
Defined.

(** ** Loading: which inputs it accepts and what it keeps *)

Lemma map_result_succeeds_iff {A B} (f : A -> result B) (l : list A) :
  (exists ys, map_result f l = Ok ys)
  <-> Forall (fun x => exists y, f x = Ok y) l.
Proof.
  induction l as [|x l IH]; cbn [map_result].
  - split; [constructor | intros _; eexists; reflexivity].
  - split.
    + intros [ys H]. destruct (f x) as [y | e] eqn:Hx; cbn [bind] in H;
        [| discriminate].
      constructor; [now exists y |].
      apply IH. destruct (map_result f l) as [ys' | e]; [| discriminate].
      now exists ys'.
    + intros H. inversion H as [| x' l' [y Hx] Hl]; subst.
      apply IH in Hl. destruct Hl as [ys Hys].
      rewrite Hx, Hys. cbn [bind]. eexists. reflexivity.
Qed.

Lemma map_result_error {A B} (f : A -> result B) (l : list A) (e : PyError) :
  map_result f l = Raise e -> exists x, In x l /\ f x = Raise e.
Proof.
  induction l as [|x l IH]; cbn [map_result]; [discriminate |].
  destruct (f x) as [y | e'] eqn:Hx; cbn [bind].
  - destruct (map_result f l) as [ys | e'']; cbn [bind]; [discriminate |].
    intros H. injection H as ->.
    destruct (IH eq_refl) as (x' & Hin & Hx').
    exists x'. split; [now right | exact Hx'].
  - intros H. injection H as ->. exists x. split; [now left | exact Hx].
Qed.

Lemma normalize_img_succeeds_iff_rank_aux (image : Tensor Z) (label : Z) :
  (exists out enc, normalize_img image label = Ok (out, enc)) ->
  (3 <= rank image)%nat.
Proof.
  intros (out & enc & H). now destruct (normalize_img_inv _ _ _ _ H).
Qed.

Lemma Forall_arrival_order {A} (P : A -> Prop) (arrival : nat -> nat)
    (l : list A) :
  Forall P (arrival_order arrival l) <-> Forall P l.
Proof.
  pose proof (arrival_order_permutation arrival l) as Hp.
  rewrite !Forall_forall. split; intros H x Hx; apply H.
  - exact (Permutation_in x Hp Hx).
  - exact (Permutation_in x (Permutation_sym Hp) Hx).
Qed.

(** Loading succeeds exactly when every image of both splits has rank 3 or
    more; otherwise it raises the error of the transform, and no dataset is
    returned. *)
Theorem load_datasets_succeeds_iff_ranks (src_train src_test : list RawSample)
    (draws : nat -> nat) :
  ((exists ds, load_datasets src_train src_test draws = Ok ds)
   <-> Forall (fun s => (3 <= rank (fst s))%nat) (src_train ++ src_test)) /\
  (forall e, load_datasets src_train src_test draws = Raise e ->
             e = InvalidArgumentError "Invalid reduction dimension" /\
             exists s, In s (src_train ++ src_test) /\
                       (rank (fst s) < 3)%nat).
Proof.
  assert (Hok : forall (a : nat -> nat) (l : list RawSample),
             (exists ys, map_result normalize_sample (arrival_order a l)
                         = Ok ys)
             <-> Forall (fun s => (3 <= rank (fst s))%nat) l).
  { intros a l. rewrite map_result_succeeds_iff, Forall_arrival_order.
    split; intros H;
      (eapply Forall_impl; [| exact H]); intros s Hs; cbv beta in *.
    - unfold normalize_sample in Hs. destruct Hs as [[out enc] Hs].
      apply (normalize_img_succeeds_iff_rank_aux (fst s) (snd s)).
      now exists out, enc.
    - unfold normalize_sample.
      destruct (normalize_img_cases (fst s) (snd s))
        as [(_ & out & Hn & _) | (Hlt & _)]; [| lia].
      eexists. exact Hn. }
  assert (Herr : forall (a : nat -> nat) (l : list RawSample) e,
             map_result normalize_sample (arrival_order a l) = Raise e ->
             e = InvalidArgumentError "Invalid reduction dimension" /\
             exists s, In s l /\ (rank (fst s) < 3)%nat).
  { intros a l e H. destruct (map_result_error _ _ _ H) as (s & Hin & Hs).
    apply (Permutation_in s
             (Permutation_sym (arrival_order_permutation a l))) in Hin.
    unfold normalize_sample in Hs.
    destruct (normalize_img_cases (fst s) (snd s))
      as [(_ & out & Hn & _) | (Hlt & Hn)]; rewrite Hn in Hs;
      [discriminate |].
    injection Hs as <-. split; [reflexivity |]. now exists s. }
  rewrite load_datasets_unfold. split.
  - rewrite Forall_app, <- (Hok (substream 0 draws)),
      <- (Hok (substream 1 draws)). split.
    + intros [ds H].
      destruct (map_result normalize_sample
                  (arrival_order (substream 0 draws) src_train))
        as [tr | e]; [| discriminate].
      destruct (map_result normalize_sample
                  (arrival_order (substream 1 draws) src_test))
        as [te | e]; [| discriminate].
      split; eexists; reflexivity.
    + intros [[tr Htr] [te Hte]]. rewrite Htr, Hte. eexists. reflexivity.
  - intros e H.
    destruct (map_result normalize_sample
                (arrival_order (substream 0 draws) src_train))
      as [tr | e1] eqn:Htr.
    + destruct (map_result normalize_sample
                  (arrival_order (substream 1 draws) src_test))
        as [te | e2] eqn:Hte; [discriminate |].
      injection H as <-. destruct (Herr _ _ _ Hte) as (He & s & Hin & Hs).
      split; [exact He |]. exists s. split; [| exact Hs].
      apply in_or_app. now right.
    + injection H as <-. destruct (Herr _ _ _ Htr) as (He & s & Hin & Hs).
      split; [exact He |]. exists s. split; [| exact Hs].
      apply in_or_app. now left.
Qed.

Lemma map_result_length {A B} (f : A -> result B) (l : list A) (ys : list B) :
  map_result f l = Ok ys -> length ys = length l.
Proof.
  intros H. apply map_result_Forall2 in H.
  symmetry. eapply Forall2_length. exact H.
Qed.

Lemma groups_sizes {A} (n fuel : nat) (l : list A) :
  (0 < n)%nat ->
  Forall (fun g => (1 <= length g <= n)%nat) (groups fuel n l).
Proof.
  intros Hn. revert l. induction fuel as [|fuel IH]; intros l.
  - constructor.
  - destruct l as [|x l]; [constructor |].
    cbn [groups]. constructor; [| apply IH].
    rewrite length_firstn. cbn [length]. lia.
Qed.

Lemma arrival_samples_length (arrival : nat -> nat) (src : list RawSample)
    (ys : list Sample) :
  map_result normalize_sample (arrival_order arrival src) = Ok ys ->
  length ys = length src.
Proof.
  intros H. rewrite (map_result_length _ _ _ H).
  symmetry. apply Permutation_length, arrival_order_permutation.
Qed.

(** Loading loses and invents nothing: each split comes out in
    [ceil(N / 128)] batches of 1 to 128 samples that hold [N] samples in
    all, for the [N] samples of the source split. *)
Theorem load_datasets_batch_counts (src_train src_test : list RawSample)
    (draws : nat -> nat) (ds_train ds_test : Dataset (list Sample)) :
  load_datasets src_train src_test draws = Ok (ds_train, ds_test) ->
  length (elements ds_train) = ((length src_train + 127) / 128)%nat /\
  length (elements ds_test) = ((length src_test + 127) / 128)%nat /\
  length (concat (elements ds_train)) = length src_train /\
  length (concat (elements ds_test)) = length src_test /\
  Forall (fun b => (1 <= length b <= 128)%nat)
         (elements ds_train ++ elements ds_test).
Proof.
  intros Hload.
  destruct (load_datasets_inv _ _ _ _ _ Hload)
    as (tr & te & sh & Htr & Hte & Hperm & -> & -> & _).
  assert (H128 : (0 < 128)%nat) by lia.
  pose proof (arrival_samples_length _ _ _ Htr) as Hltr.
  pose proof (arrival_samples_length _ _ _ Hte) as Hlte.
  pose proof (Permutation_length Hperm) as Hsh.
  split; [rewrite (groups_count 128) by (exact H128 || apply Nat.le_refl);
          now rewrite <- Hsh, Hltr |].
  split; [rewrite (groups_count 128) by (exact H128 || apply Nat.le_refl);
          now rewrite Hlte |].
  split; [rewrite (groups_concat 128) by (exact H128 || apply Nat.le_refl);
          now rewrite <- Hsh |].
  split; [rewrite (groups_concat 128) by (exact H128 || apply Nat.le_refl);
          exact Hlte |].
  apply Forall_app. split; apply groups_sizes; exact H128.
Qed.

Lemma load_datasets_batch_counts_witness :
  exists ds_train ds_test,
    load_datasets (map black_sample [0; 1]%Z) (map black_sample [7]%Z)
                  (fun _ => 0%nat)
    = Ok (ds_train, ds_test) /\
    length (elements ds_train) = 1%nat /\
    length (concat (elements ds_train)) = 2%nat.
Proof.
  destruct (black_samples_normalize [0; 1]%Z) as [tr Htr].
  destruct (black_samples_normalize [7]%Z) as [te Hte].
  destruct (load_datasets_succeeds _ _ (fun _ => 0%nat) _ _ Htr Hte)
    as (ds_train & ds_test & Hload).
  exists ds_train, ds_test. split; [exact Hload |].
  destruct (load_datasets_batch_counts _ _ _ _ _ Hload)
    as (Hc & _ & Hn & _).
  split; [exact Hc | exact Hn].
Defined.

(** ** Training: how long it runs and what it ends with *)

Section TrainingEnd.

Variable Weights : Type.
Variable run_epoch : nat -> Weights -> Weights * Logs.
Variable restore_on_train_end : bool.
Variable w0 : Weights.

(** The end of a training that the callback has not stopped: all 50
    epochs are in the history, the best epoch is one of the last five, and
    the parameters are those of the best epoch where Keras restores them
    at the end of every training, those of the last epoch where it does
    not. *)
Lemma train_unstopped :
  stop_training (train run_epoch restore_on_train_end w0) = false ->
  exists b,
    best_epoch_of run_epoch w0 b 50 /\ (45 <= b)%nat /\
    history (train run_epoch restore_on_train_end w0)
      = map (logs_of run_epoch w0) (seq 0 50) /\
    best_epoch (callback (train run_epoch restore_on_train_end w0)) = b /\
    weights (train run_epoch restore_on_train_end w0)
      = (if restore_on_train_end then weights_after run_epoch w0 b
         else weights_after run_epoch w0 49).
Proof.
  unfold train, fit, MAX_EPOCHS. rewrite first_epoch_running.
  pose proof (fit_loop_invariant Weights run_epoch restore_on_train_end w0
                49 1 _ (le_n 1) (first_epoch_invariant Weights run_epoch w0))
    as Hloop.
  remember (fit_loop run_epoch restore_on_train_end (EarlyStopping 5 true)
              49 1%nat
              (mkFit (weights_after run_epoch w0 0) false
                 (mkCallback 0 0 (Some (val_loss_of run_epoch w0 0))
                    (Some (weights_after run_epoch w0 0)) 0)
                 [logs_of run_epoch w0 0])) as st eqn:Est.
  clear Est.
  destruct Hloop
    as [[Hs (b & Hw & _ & Hh & Hc & Hbest & Hwait)]
       | (Hs & (b & _ & Hh & Hbest & Hc & Hw) & Hlen)].
  - intros _. exists b. unfold on_train_end. rewrite Hc.
    cbn [best_weights restore_best_weights EarlyStopping andb].
    assert (H50 : (1 + 49 = 50)%nat) by reflexivity.
    rewrite H50 in Hh, Hbest, Hwait, Hw.
    assert (Hb : (b < 50)%nat) by (destruct Hbest as (Hb & _); exact Hb).
    split; [exact Hbest |]. split; [lia |].
    destruct restore_on_train_end;
      cbn [stop_training history callback weights best_epoch].
    + split; [exact Hh |]. split; reflexivity.
    + rewrite Hc. cbn [best_epoch].
      split; [exact Hh |]. split; [reflexivity | exact Hw].
  - unfold on_train_end. rewrite Hc.
    cbn [best_weights restore_best_weights EarlyStopping andb].
    destruct restore_on_train_end; cbn [stop_training]; rewrite Hs;
      discriminate.
Qed.

(** The history of a training: the metrics of the first [n] epochs, in
    order, for some [n] between 6 and 50; short of 50 only when the
    callback has stopped the training. *)
Lemma train_history :
  exists n,
    (6 <= n <= 50)%nat /\
    history (train run_epoch restore_on_train_end w0)
      = map (logs_of run_epoch w0) (seq 0 n) /\
    (stop_training (train run_epoch restore_on_train_end w0) = false ->
     n = 50%nat).
Proof.
  pose proof (train_outcome Weights run_epoch restore_on_train_end w0)
    as Hout.
  remember (train run_epoch restore_on_train_end w0) as final eqn:Efinal.
  clear Efinal.
  destruct Hout as [(Hs & Hh & _) | (Hs & b & Hlen & Hh & _)].
  - exists 50%nat. split; [lia |]. split; [exact Hh | reflexivity].
  - exists (b + 6)%nat. split; [lia |]. split; [exact Hh |].
    rewrite Hs. discriminate.
Qed.

(** With a patience of 5 the callback cannot stop the training before the
    sixth epoch: every training runs between 6 and 50 epochs, and its
    history holds the metrics of exactly these epochs, in order. *)
Theorem training_runs_six_to_fifty_epochs :
  exists n,
    (6 <= n <= MAX_EPOCHS)%nat /\
    length (history (train run_epoch restore_on_train_end w0)) = n /\
    history (train run_epoch restore_on_train_end w0)
      = map (logs_of run_epoch w0) (seq 0 n) /\
    (n < MAX_EPOCHS ->
     stop_training (train run_epoch restore_on_train_end w0) = true)%nat.
Proof.
  unfold MAX_EPOCHS. destruct train_history as (n & Hn & Hh & Hs).
  remember (train run_epoch restore_on_train_end w0) as final eqn:Efinal.
  clear Efinal.
  exists n. split; [exact Hn |].
  split; [rewrite Hh, length_map; apply length_seq |].
  split; [exact Hh |].
  intros Hlt. destruct (stop_training final); [reflexivity |].
  specialize (Hs eq_refl). lia.
Qed.

(** A training that runs its 50 epochs without being stopped still ends
    with [restore_best_weights]: where Keras restores at the end of every
    training the final parameters are those of the best epoch, one of the
    last five; where it restores only on a stop they are those of the last
    epoch. *)
Theorem full_run_final_weights :
  stop_training (train run_epoch restore_on_train_end w0) = false ->
  length (history (train run_epoch restore_on_train_end w0)) = 50%nat /\
  exists b,
    (45 <= b < 50)%nat /\
    best_epoch_of run_epoch w0 b 50 /\
    best_epoch (callback (train run_epoch restore_on_train_end w0)) = b /\
    weights (train run_epoch restore_on_train_end w0)
      = (if restore_on_train_end then weights_after run_epoch w0 b
         else weights_after run_epoch w0 49).
Proof.
  intros Hs. destruct (train_unstopped Hs) as (b & Hbest & Hb & Hh & Hbe & Hw).
  remember (train run_epoch restore_on_train_end w0) as final eqn:Efinal.
  clear Efinal.
  split; [rewrite Hh, length_map; apply length_seq |].
  exists b. split; [destruct Hbest as (Hlt & _); lia |].
  split; [exact Hbest |]. split; [exact Hbe | exact Hw].
Qed.

(** A validation loss that falls at every epoch never triggers the
    callback: training runs all 50 epochs and ends with the parameters of
    the last one, whichever way Keras restores. *)
Theorem improving_run_trains_to_the_end :
  (forall e, (S e < 50)%nat ->
             (val_loss_of run_epoch w0 (S e) < val_loss_of run_epoch w0 e)%Q) ->
  stop_training (train run_epoch restore_on_train_end w0) = false /\
  length (history (train run_epoch restore_on_train_end w0)) = 50%nat /\
  best_epoch (callback (train run_epoch restore_on_train_end w0)) = 49%nat /\
  weights (train run_epoch restore_on_train_end w0)
    = weights_after run_epoch w0 49.
Proof.
  intros Hfall.
  assert (Hlast : forall b n, best_epoch_of run_epoch w0 b n ->
                              (n <= 50)%nat -> S b = n).
  { intros b n (Hb & _ & Hle) Hn.
    destruct (Nat.eq_dec (S b) n) as [Heq | Hne]; [exact Heq | exfalso].
    assert (H1 : (val_loss_of run_epoch w0 (S b)
                  < val_loss_of run_epoch w0 b)%Q) by (apply Hfall; lia).
    assert (H2 : (val_loss_of run_epoch w0 b
                  <= val_loss_of run_epoch w0 (S b))%Q) by (apply Hle; lia).
    lra. }
  pose proof (train_outcome Weights run_epoch restore_on_train_end w0)
    as Hout.
  pose proof train_unstopped as Hun.
  remember (train run_epoch restore_on_train_end w0) as final eqn:Efinal.
  clear Efinal.
  destruct Hout as [(Hs & _) | (_ & b & Hlen & _ & Hbest & _)].
  - destruct (Hun Hs) as (b & Hbest & _ & Hh & Hbe & Hw).
    assert (Hb : S b = 50%nat) by (apply (Hlast b 50%nat Hbest); lia).
    assert (Hb' : b = 49%nat) by lia.
    split; [exact Hs |].
    split; [rewrite Hh, length_map; apply length_seq |].
    split; [rewrite Hbe; exact Hb' |].
    rewrite Hw, Hb'. destruct restore_on_train_end; reflexivity.
  - exfalso. pose proof (Hlast b (b + 6)%nat Hbest Hlen). lia.
Qed.

End TrainingEnd.

Lemma full_run_final_weights_witness :
  stop_training (train (synthetic_epoch 45) true 0%nat) = false /\
  length (history (train (synthetic_epoch 45) true 0%nat)) = 50%nat /\
  exists b,
    (45 <= b < 50)%nat /\
    weights (train (synthetic_epoch 45) true 0%nat)
      = weights_after (synthetic_epoch 45) 0%nat b.
Proof.
  assert (Hs : stop_training (train (synthetic_epoch 45) true 0%nat) = false)
    by (vm_compute; reflexivity).
  destruct (full_run_final_weights nat (synthetic_epoch 45) true 0%nat Hs)
    as (Hl & b & Hb & _ & _ & Hw).
  split; [exact Hs |]. split; [exact Hl |].
  exists b. split; [exact Hb | exact Hw].
Defined.

Lemma improving_run_trains_to_the_end_witness :
  (forall e, (S e < 50)%nat ->
     (val_loss_of (synthetic_epoch 60) 0%nat (S e)
      < val_loss_of (synthetic_epoch 60) 0%nat e)%Q) /\
  length (history (train (synthetic_epoch 60) true 0%nat)) = 50%nat /\
  weights (train (synthetic_epoch 60) true 0%nat) = 50%nat.
Proof.
  assert (Hfall : forall e, (S e < 50)%nat ->
     (val_loss_of (synthetic_epoch 60) 0%nat (S e)
      < val_loss_of (synthetic_epoch 60) 0%nat e)%Q).
  { intros e He. rewrite !synthetic_val_loss.
    rewrite !Nat.min_l by lia. rewrite <- Zlt_Qlt. lia. }
  destruct (improving_run_trains_to_the_end nat (synthetic_epoch 60) true
              0%nat Hfall) as (_ & Hl & _ & Hw).
  split; [exact Hfall |]. split; [exact Hl |].
  rewrite Hw. apply synthetic_weights.
Defined.

(** ** The whole script: every way [main] can end *)

(** The only error loading can raise is the one of the transform. *)
Lemma load_datasets_error_kind (src_train src_test : list RawSample)
    (draws : nat -> nat) (e : PyError) :
  load_datasets src_train src_test draws = Raise e ->
  e = InvalidArgumentError "Invalid reduction dimension".
Proof.
  assert (Herr : forall (l : list RawSample) e',
             map_result normalize_sample l = Raise e' ->
             e' = InvalidArgumentError "Invalid reduction dimension").
  { intros l e' H. destruct (map_result_error _ _ _ H) as (s & _ & Hs).
    unfold normalize_sample in Hs.
    destruct (normalize_img_cases (fst s) (snd s))
      as [(_ & out & Hn & _) | (_ & Hn)]; rewrite Hn in Hs;
      [discriminate |].
    now injection Hs as <-. }
  rewrite load_datasets_unfold.
  destruct (map_result normalize_sample
              (arrival_order (substream 0 draws) src_train))
    as [tr | e1] eqn:Htr.
  - destruct (map_result normalize_sample
                (arrival_order (substream 1 draws) src_test))
      as [te | e2] eqn:Hte; [discriminate |].
    intros H. injection H as <-. exact (Herr _ _ Hte).
  - intros H. injection H as <-. exact (Herr _ _ Htr).
Qed.

(** One image of rank below 3, in either split, makes loading raise. *)
Lemma load_datasets_rank_error (src_train src_test : list RawSample)
    (draws : nat -> nat) (s : RawSample) :
  In s (src_train ++ src_test) -> (rank (fst s) < 3)%nat ->
  load_datasets src_train src_test draws
  = Raise (InvalidArgumentError "Invalid reduction dimension").
Proof.
  intros Hin Hrank.
  destruct (load_datasets src_train src_test draws) as [ds | e] eqn:Hload.
  - exfalso. rewrite load_datasets_unfold in Hload.
    destruct (map_result normalize_sample
                (arrival_order (substream 0 draws) src_train))
      as [tr | e1] eqn:Htr; [| discriminate].
    destruct (map_result normalize_sample
                (arrival_order (substream 1 draws) src_test))
      as [te | e2] eqn:Hte; [| discriminate].
    clear Hload.
    assert (Hok : Forall (fun x => exists y, normalize_sample x = Ok y)
                         (src_train ++ src_test)).
    { apply Forall_app.
      split; [apply (Forall_arrival_order _ (substream 0 draws))
             | apply (Forall_arrival_order _ (substream 1 draws))];
        apply map_result_succeeds_iff; eexists; eassumption. }
    rewrite Forall_forall in Hok. destruct (Hok s Hin) as [[out enc] Hs].
    unfold normalize_sample in Hs.
    assert (H3 : (3 <= rank (fst s))%nat).
    { apply (normalize_img_succeeds_iff_rank_aux (fst s) (snd s)).
      now exists out, enc. }
    lia.
  - f_equal. exact (load_datasets_error_kind _ _ _ _ Hload).
Qed.

Section MainProperties.

Variable Weights : Type.
Variable run_epoch : nat -> Weights -> Weights * Logs.
Variable restore_on_train_end : bool.
Variable has_export : bool.
Variable src_train src_test : list RawSample.
Variable draws : nat -> nat.
Variable w0 : Weights.

Local Abbreviation run :=
  (main Weights run_epoch restore_on_train_end has_export
        src_train src_test draws w0).

(** When loading raises, [main] raises the same error at once. *)
Lemma main_on_load_error (e : PyError) (w : World) :
  load_datasets src_train src_test draws = Raise e ->
  run w = (Raise e, w).
Proof.
  intros Hload. unfold main, pbind, lift. rewrite Hload. reflexivity.
Qed.

(** When loading succeeds, [main] trains, plots and raises on
    [MODEL_DIR]. *)
Lemma main_on_loaded (ds : Dataset (list Sample) * Dataset (list Sample))
    (w : World) :
  load_datasets src_train src_test draws = Ok ds ->
  run w
  = (Raise (NameError "MODEL_DIR"),
     snd (plot_metrics
            (history (train run_epoch restore_on_train_end w0)) w)).
Proof.
  intros Hload. unfold main, pbind, lift. rewrite Hload.
  remember (train run_epoch restore_on_train_end w0) as final eqn:Efinal.
  clear Efinal.
  destruct (plot_metrics (history final) w) as [[[] | e] w'] eqn:Hplot.
  - cbn [snd]. apply save_section_raises.
  - discriminate Hplot.
Qed.

(** [main] never returns: on every dataset, with every training and from
    every state of the working directory, it ends in an exception, the
    error of the transform or the [NameError] of [MODEL_DIR], and by then
    it has written no file and made no directory. *)
Theorem main_never_completes (w : World) :
  exists e w',
    run w = (Raise e, w') /\
    (e = InvalidArgumentError "Invalid reduction dimension" \/
     e = NameError "MODEL_DIR") /\
    files w' = files w /\
    directories w' = directories w.
Proof.
  destruct (load_datasets src_train src_test draws) as [ds | e] eqn:Hload.
  - exists (NameError "MODEL_DIR"). eexists.
    split; [exact (main_on_loaded ds w Hload) |].
    split; [now right |].
    remember (train run_epoch restore_on_train_end w0) as final eqn:Efinal.
    clear Efinal. repeat split.
  - exists e, w. split; [exact (main_on_load_error e w Hload) |].
    split; [left; exact (load_datasets_error_kind _ _ _ _ Hload) |].
    repeat split.
Qed.

(** One image without a channel axis anywhere in the dataset, test split
    included, aborts [main] before the model is trained: it raises the
    error of the transform and leaves the world as it was, no figure
    shown. *)
Theorem main_aborts_on_bad_sample (s : RawSample) (w : World) :
  In s (src_train ++ src_test) -> (rank (fst s) < 3)%nat ->
  run w = (Raise (InvalidArgumentError "Invalid reduction dimension"), w).
Proof.
  intros Hin Hrank. apply main_on_load_error.
  exact (load_datasets_rank_error _ _ draws s Hin Hrank).
Qed.

(** The figure [main] shows when loading succeeds: the accuracy chart on
    the left and the loss chart on the right, each with the train curve
    and the validation curve, and on every curve one point per epoch
    trained, in order, for between 6 and 50 epochs. *)
Theorem main_plots_every_epoch
    (ds : Dataset (list Sample) * Dataset (list Sample)) (w : World) :
  load_datasets src_train src_test draws = Ok ds ->
  exists n,
    (6 <= n <= 50)%nat /\
    figures (snd (run w))
    = [ mkChart "Accuracy Curve" "Epochs" "Accuracy"
          [ mkCurve "Train Accuracy"
              (map accuracy (map (logs_of run_epoch w0) (seq 0 n)));
            mkCurve "Test Accuracy"
              (map val_accuracy (map (logs_of run_epoch w0) (seq 0 n))) ];
        mkChart "Loss Curve" "Epochs" "Loss"
          [ mkCurve "Train Loss"
              (map loss (map (logs_of run_epoch w0) (seq 0 n)));
            mkCurve "Test Loss"
              (map val_loss (map (logs_of run_epoch w0) (seq 0 n))) ] ]
      :: figures w.
Proof.
  intros Hload. rewrite (main_on_loaded ds w Hload).
  destruct (train_history Weights run_epoch restore_on_train_end w0)
    as (n & Hn & Hh & _).
  remember (train run_epoch restore_on_train_end w0) as final eqn:Efinal.
  clear Efinal.
  exists n. split; [exact Hn |]. rewrite Hh. reflexivity.
Qed.

End MainProperties.

(** An image of 28 x 28 pixels without a channel axis. *)
Lemma main_aborts_on_bad_sample_witness :
  main nat (synthetic_epoch 2) false false
       (map black_sample [0; 1]%Z)
       [(mkTensor [28; 28]%nat (repeat 0%Z 784), 7%Z)]
       (fun _ => 0%nat) 0%nat empty_world
  = (Raise (InvalidArgumentError "Invalid reduction dimension"), empty_world).
Proof.
  apply (main_aborts_on_bad_sample nat (synthetic_epoch 2) false false
           (map black_sample [0; 1]%Z)
           [(mkTensor [28; 28]%nat (repeat 0%Z 784), 7%Z)]
           (fun _ => 0%nat) 0%nat
           (mkTensor [28; 28]%nat (repeat 0%Z 784), 7%Z) empty_world).
  - apply in_or_app. right. left. reflexivity.
  - cbn [fst rank shape length]. lia.
Defined.

Lemma main_plots_every_epoch_witness :
  exists ds n,
    load_datasets (map black_sample [0; 1]%Z) (map black_sample [7]%Z)
                  (fun _ => 0%nat) = Ok ds /\
    (6 <= n <= 50)%nat /\
    map (fun c => map (fun k => length (curve_ys k)) (curves c))
        (hd [] (figures (snd (main nat (synthetic_epoch 2) false false
                                (map black_sample [0; 1]%Z)
                                (map black_sample [7]%Z)
                                (fun _ => 0%nat) 0%nat empty_world))))
    = [[n; n]; [n; n]].
Proof.
  destruct (black_samples_normalize [0; 1]%Z) as [tr Htr].
  destruct (black_samples_normalize [7]%Z) as [te Hte].
  destruct (load_datasets_succeeds _ _ (fun _ => 0%nat) _ _ Htr Hte)
    as (ds_train & ds_test & Hload).
  destruct (main_plots_every_epoch nat (synthetic_epoch 2) false false
              _ _ _ 0%nat _ empty_world Hload) as (n & Hn & Hfig).
  exists (ds_train, ds_test), n. split; [exact Hload |].
  split; [exact Hn |]. rewrite Hfig.
  cbn [hd map curves curve_ys]. rewrite !length_map, length_seq.
  reflexivity.
Defined.

(** ** The two readings of the transform *)

Lemma binary32_broadcast_length
    (op : Binary32.float32 -> Binary32.float32 -> Binary32.float32)
    (x y : Tensor Binary32.float32) :
  length (data (Binary32.broadcast op x y)) = length (data x).
Proof.
  unfold Binary32.broadcast. cbn [data].
  rewrite length_map, length_combine, length_seq. apply Nat.min_id.
Qed.

(** The transform in binary32 as one case distinction on the rank of the
    image. *)
Lemma binary32_normalize_img_cases
    (reduce_sum : list Binary32.float32 -> Binary32.float32)
    (image : Tensor Z) (label : Z) :
  ((3 <= rank image)%nat /\
   exists out,
     Binary32.normalize_img reduce_sum image label
     = Ok (out, Binary32.tf_one_hot label NUM_CLASSES) /\
     shape out = shape image ++ [1%nat] /\
     length (data out) = length (data image)) \/
  ((rank image < 3)%nat /\
   Binary32.normalize_img reduce_sum image label
   = Raise (InvalidArgumentError "Invalid reduction dimension")).
Proof.
  destruct (Nat.le_gt_cases 3 (rank image)) as [Hle | Hlt].
  - left. split; [exact Hle |].
    unfold Binary32.normalize_img, Binary32.tf_nn_moments.
    set (x := Binary32.div_scalar (Binary32.tf_cast image)
                (Binary32.of_Z 255)).
    unfold Binary32.reduce_mean_leading at 1.
    assert (Hrk : rank x = rank image) by reflexivity.
    rewrite Hrk.
    replace (3 <=? rank image)%nat with true
      by (symmetry; apply Nat.leb_le; exact Hle).
    cbn [bind]. unfold Binary32.reduce_mean_leading.
    match goal with
    | |- context [(3 <=? rank ?t)%nat] =>
        replace (3 <=? rank t)%nat with true
          by (symmetry; apply Nat.leb_le; exact Hle)
    end.
    cbn [bind]. rewrite expand_dims_last. cbn [bind].
    eexists. split; [reflexivity |]. cbn [shape data].
    split; [reflexivity |].
    rewrite !binary32_broadcast_length. subst x.
    unfold Binary32.div_scalar, Binary32.tf_cast, tensor_map. cbn [data].
    now rewrite !length_map.
  - right. split; [exact Hlt |].
    unfold Binary32.normalize_img, Binary32.tf_nn_moments,
      Binary32.reduce_mean_leading.
    replace (3 <=? rank _)%nat with false; [reflexivity |].
    symmetry. apply Nat.leb_gt. exact Hlt.
Qed.

(** Exact and binary32 arithmetic accept the same images, raise the same
    error on the others, and return tensors of the same shapes and sizes,
    with the same label encoding: 0 and 1 are binary32 numbers. *)
Theorem readings_agree_on_shapes
    (reduce_sum : list Binary32.float32 -> Binary32.float32)
    (image : Tensor Z) (label : Z) :
  (exists out enc out' enc',
     normalize_img image label = Ok (out, enc) /\
     Binary32.normalize_img reduce_sum image label = Ok (out', enc') /\
     shape out' = shape out /\
     length (data out') = length (data out) /\
     shape enc' = shape enc /\
     map (fun x => Q2R (Binary32.value x)) (data enc') = data enc) \/
  (normalize_img image label
   = Raise (InvalidArgumentError "Invalid reduction dimension") /\
   Binary32.normalize_img reduce_sum image label
   = Raise (InvalidArgumentError "Invalid reduction dimension")).
Proof.
  destruct (normalize_img_cases image label)
    as [(Hle & out & Hn & Hs & Hl) | (Hlt & Hn)];
    destruct (binary32_normalize_img_cases reduce_sum image label)
      as [(Hle' & out' & Hn' & Hs' & Hl') | (Hlt' & Hn')]; try lia.
  - left. exists out, (tf_one_hot label NUM_CLASSES), out',
      (Binary32.tf_one_hot label NUM_CLASSES).
    split; [exact Hn |]. split; [exact Hn' |].
    split; [now rewrite Hs, Hs' |]. split; [now rewrite Hl, Hl' |].
    split; [reflexivity |].
    unfold Binary32.tf_one_hot, tf_one_hot. cbn [data].
    rewrite map_map. apply map_ext. intros i.
    destruct (Z.of_nat i =? label)%Z.
    + replace (Binary32.value Binary32.one) with (8388608 # 8388608)%Q
        by reflexivity.
      unfold Q2R. cbn [Qnum Qden]. field.
    + replace (Binary32.value Binary32.zero) with 0%Q by reflexivity.
      unfold Q2R. cbn [Qnum Qden]. lra.
  - right. split; assumption.
Qed.
